(** * pi-peer-healthcheck: a shallow embedding of [PiPeer.py] and of the
    driver [pi-peer-healthcheck.py], and the properties of the peer
    health-state model that hold of them.

    Python statements are written in a small monad that threads the state
    and carries the three ways a statement can end: falling through to the
    next statement, a [return], or a raised exception.  Everything outside
    the interpreter (the resolver, [subprocess.run], the mail relay) is an
    oracle indexed by a clock that advances on every external call; each
    call is recorded in a trace together with the log records of level
    INFO and above.  DEBUG records are left out: their arguments only
    format values that are already in scope, so they neither raise nor
    change anything the other statements see.  Argument parsing and the
    set-up of the logger come before the part of [main] that is modelled. *)

From Stdlib Require Import String Ascii List ZArith Lia Bool Arith DecimalString.
Import ListNotations.
Open Scope string_scope.
Open Scope Z_scope.

(** ** Exceptions and control signals *)

(** Every exception the modelled code can meet derives from [Exception],
    which is what its handlers catch; interrupts and [SystemExit] end the
    process and are outside the model.  [exn_text] is what [str(e)] gives,
    as used by the [{e}] f-string fields. *)
Record exn := Exn { exn_class : string; exn_text : string }.

Inductive signal (R A : Type) : Type :=
| Next (a : A)      (* the statement completed; go on with the next one *)
| Return (r : R)    (* a [return r] was executed *)
| Raise (e : exn).  (* an exception is propagating *)

Arguments Next {R A} a.
Arguments Return {R A} r.
Arguments Raise {R A} e.

(** Mutations made before a [return] or a [raise] persist, so the state is
    returned alongside every signal. *)
Definition M (S R A : Type) : Type := S -> signal R A * S.

Definition ret {S R A} (a : A) : M S R A := fun s => (Next a, s).

Definition bind {S R A B} (m : M S R A) (k : A -> M S R B) : M S R B :=
  fun s =>
    match m s with
    | (Next a, s') => k a s'
    | (Return r, s') => (Return r, s')
    | (Raise e, s') => (Raise e, s')
    end.

Definition return_ {S R A} (r : R) : M S R A := fun s => (Return r, s).

Definition raise {S R A} (e : exn) : M S R A := fun s => (Raise e, s).

(** [try: body / except Exception as e: handler e]. *)
Definition try_except {S R A} (body : M S R A) (handler : exn -> M S R A)
  : M S R A :=
  fun s =>
    match body s with
    | (Raise e, s') => handler e s'
    | other => other
    end.

Definition gets {S R A} (f : S -> A) : M S R A := fun s => (Next (f s), s).

Definition modify {S R} (f : S -> S) : M S R unit := fun s => (Next tt, f s).

Definition when {S R} (b : bool) (m : M S R unit) : M S R unit :=
  if b then m else ret tt.

Declare Scope py_scope.
Delimit Scope py_scope with py.
Notation "x <- c1 ;; c2" := (bind c1 (fun x => c2))
  (at level 61, c1 at next level, right associativity) : py_scope.
Notation "c1 ;; c2" := (bind c1 (fun _ => c2))
  (at level 61, right associativity) : py_scope.
Open Scope py_scope.

(** ** The world outside the interpreter *)

Inductive level := INFO | WARNING | ERROR.

Inductive event :=
| EvResolve (host : string) (r : string + exn)
    (* socket.gethostbyname(host) *)
| EvRun (cmd : string) (r : Z + exn)
    (* subprocess.run(cmd, shell=True, ...) and its returncode *)
| EvSend (server sender rcpt subject body : string) (r : option exn)
    (* one call of send_email; [None] when the relay took the message *)
| EvLog (l : level) (msg : string)
| EvSleep (secs : Z).

Record World := { clock : nat; trace : list event }.

(** The oracles.  An [inr] answer is the exception the call raised.
    [local_hostname] is [socket.gethostname()] as read once when the
    script is imported; [mime_as_string] stands for [MIMEText] +
    [make_msgid] + [as_string], which are taken not to raise. *)
Record Env := {
  gethostbyname : nat -> string -> string + exn;
  subprocess_run : nat -> string -> Z + exn;
  smtp_sendmail : nat -> string -> string -> string -> string -> option exn;
  mime_as_string : nat -> string -> string -> string -> string -> string;
  local_hostname : string
}.

Definition record_event (ev : event) (w : World) : World :=
  {| clock := clock w; trace := trace w ++ [ev] |}.

Definition tick (ev : event) (w : World) : World :=
  {| clock := S (clock w); trace := trace w ++ [ev] |}.

(** States that contain the world. *)
Class HasWorld (S : Type) := {
  world_of : S -> World;
  with_world : World -> S -> S
}.

#[global] Instance HasWorld_World : HasWorld World :=
  {| world_of := fun w => w; with_world := fun w _ => w |}.

(** ** Python values and formatting *)

(** [f"{n}"] for an [int]. *)
Definition str_int (n : Z) : string := NilZero.string_of_int (Z.to_int n).

(** [f"{x}"] for a value that is a [str] or [None]. *)
Definition str_opt (x : option string) : string :=
  match x with Some s => s | None => "None" end.

(** Truthiness of an optional command-line string ([--email]). *)
Definition truthy (x : option string) : bool :=
  match x with
  | Some s => negb (String.eqb s EmptyString)
  | None => false
  end.

(** ** PiPeer.py *)

Record PiPeer := {
  hostname : string;
  status : string;
  ip_address : option string
}.

Definition set_hostname (h : string) (p : PiPeer) : PiPeer :=
  {| hostname := h; status := status p; ip_address := ip_address p |}.
Definition set_status (s : string) (p : PiPeer) : PiPeer :=
  {| hostname := hostname p; status := s; ip_address := ip_address p |}.
Definition set_ip_address (a : option string) (p : PiPeer) : PiPeer :=
  {| hostname := hostname p; status := status p; ip_address := a |}.

(** A method runs on the world and on [self]. *)
Definition Self : Type := World * PiPeer.

#[global] Instance HasWorld_Self : HasWorld Self :=
  {| world_of := fst; with_world := fun w s => (w, snd s) |}.

Definition self_get {R A} (f : PiPeer -> A) : M Self R A :=
  gets (fun s => f (snd s)).
Definition self_set {R} (f : PiPeer -> PiPeer) : M Self R unit :=
  modify (fun s => (fst s, f (snd s))).

(** What [time.sleep] raises for a negative length. *)
Definition sleep_error : exn :=
  Exn "ValueError" "sleep length must be non-negative".

(** [time.sleep] first converts its argument to a signed 64-bit count of
    nanoseconds.  [sleep_max_secs] is the largest number of whole seconds
    for which that fits, [(2^63 - 1) / 10^9]; an [int] beyond it, on
    either side of zero, makes the conversion raise [OverflowError].  The
    text is the one of CPython 3.13 and later (the script names 3.14);
    earlier versions write [_PyTime_t]. *)
Definition sleep_max_secs : Z := 9223372036.

Definition sleep_overflow : exn :=
  Exn "OverflowError" "timestamp too large to convert to C PyTime_t".

(** A new object before [__init__] has run. *)
Definition blank_peer : PiPeer :=
  {| hostname := EmptyString; status := EmptyString; ip_address := None |}.

Section Program.

Variable env : Env.

(** *** External calls *)

Definition socket_gethostbyname {S} `{HasWorld S} {R} (h : string)
  : M S R string :=
  fun s =>
    let w := world_of s in
    let r := gethostbyname env (clock w) h in
    let s' := with_world (tick (EvResolve h r) w) s in
    match r with
    | inl ip => (Next ip, s')
    | inr e => (Raise e, s')
    end.

Definition subprocess_run_returncode {S} `{HasWorld S} {R} (cmd : string)
  : M S R Z :=
  fun s =>
    let w := world_of s in
    let r := subprocess_run env (clock w) cmd in
    let s' := with_world (tick (EvRun cmd r) w) s in
    match r with
    | inl rc => (Next rc, s')
    | inr e => (Raise e, s')
    end.

Definition log {S} `{HasWorld S} {R} (l : level) (msg : string)
  : M S R unit :=
  modify (fun s => with_world (record_event (EvLog l msg) (world_of s)) s).

(** *** class PiPeer *)

(** The two command lines, as the f-strings of [peer_ping] and [test_dns]
    build them. *)
Definition ping_command (timeout : Z) (ip : option string) : string :=
  "ping -c 4 -W " ++ str_int timeout ++ " " ++ str_opt ip.

Definition dns_command (timeout : Z) (h : string) (ip : option string)
  : string :=
  "timeout " ++ str_int timeout ++ " nslookup " ++ h ++ " " ++ str_opt ip.

(** [resolve_ip]: the assignment after the [return] is kept where the
    source has it. *)
Definition resolve_ip : M Self (option string) Empty_set :=
  try_except
    (h <- self_get hostname ;;
     ip <- socket_gethostbyname h ;;
     (return_ (Some ip) : M Self (option string) unit) ;;
     self_set (set_status "healthy"))
    (fun _ => return_ None) ;;
  return_ None.

Definition peer_ping (timeout : Z) : M Self bool Empty_set :=
  try_except
    (ip <- self_get ip_address ;;
     rc <- subprocess_run_returncode (ping_command timeout ip) ;;
     when (negb (rc =? 0))
       (self_set (set_status "unhealthy") ;;
        return_ false) ;;
     self_set (set_status "healthy") ;;
     return_ true)
    (fun _ =>
       self_set (set_status "unhealthy") ;;
       return_ false).

Definition test_dns (timeout : Z) : M Self bool Empty_set :=
  try_except
    (h <- self_get hostname ;;
     ip <- self_get ip_address ;;
     rc <- subprocess_run_returncode (dns_command timeout h ip) ;;
     when (negb (rc =? 0))
       (self_set (set_status "unhealthy") ;;
        return_ false) ;;
     self_set (set_status "healthy") ;;
     return_ true)
    (fun _ =>
       self_set (set_status "unhealthy") ;;
       return_ false).

(** Calling a method: a [return r] of the callee is the value of the call
    in the caller; an exception goes on propagating. *)
Definition call_method {R R'} (m : M Self R' Empty_set) : M Self R R' :=
  fun s =>
    match m s with
    | (Next x, _) => match x with end
    | (Return r, s') => (Next r, s')
    | (Raise e, s') => (Raise e, s')
    end.

(** [__init__]. *)
Definition PiPeer_init (hostname' : string) : M Self Empty_set unit :=
  self_set (set_hostname hostname') ;;
  self_set (set_status "unknown") ;;
  a <- call_method resolve_ip ;;
  self_set (set_ip_address a) ;;
  a' <- self_get ip_address ;;
  match a' with
  | None =>
      raise (Exn "ValueError"
               ("Could not resolve hostname for peer: " ++ hostname'))
  | Some _ => ret tt
  end.

(** *** pi-peer-healthcheck.py *)

Definition SUBJECT_PREFIX : string := "[pi-peer-healthcheck ALERT]: ".

Definition EMAIL_FROM : string :=
  "pi-peer-healthcheck@" ++ local_hostname env ++ ".kevind.link".

(** Calling a module-level function, which sees the world only. *)
Definition call_fn {S} `{HasWorld S} {R R'} (m : M World R' Empty_set)
  : M S R R' :=
  fun s =>
    match m (world_of s) with
    | (Next x, _) => match x with end
    | (Return r, w') => (Next r, with_world w' s)
    | (Raise e, w') => (Raise e, with_world w' s)
    end.

(** [with smtplib.SMTP(smtp_server) as server: server.sendmail(...)]. *)
Definition smtp_session {R} (server sender rcpt subject body msg : string)
  : M World R unit :=
  fun w =>
    let r := smtp_sendmail env (clock w) server sender rcpt msg in
    let w' := tick (EvSend server sender rcpt subject body r) w in
    match r with
    | None => (Next tt, w')
    | Some e => (Raise e, w')
    end.

Definition send_email (email_address smtp_server subject body : string)
  : M World string Empty_set :=
  c <- gets clock ;;
  let msg := mime_as_string env c EMAIL_FROM email_address subject body in
  try_except
    (smtp_session smtp_server EMAIL_FROM email_address subject body msg)
    (fun e =>
       raise (Exn "RuntimeError"
                ("Failed to send email to " ++ email_address ++ ": "
                   ++ exn_text e))) ;;
  return_ msg.

(** The entries of [argDict] that [main] reads after the logger is set
    up. *)
Record Args := {
  arg_peerList : list string;
  arg_daemonize : bool;
  arg_timeout : Z;
  arg_dnscheck : bool;
  arg_email : option string;
  arg_interval : Z;
  arg_smtp_server : string
}.

(** The locals of [main]: [reason] is [None] while the name is unbound. *)
Record Locals := {
  l_world : World;
  peerList : list PiPeer;
  reason : option string
}.

#[global] Instance HasWorld_Locals : HasWorld Locals :=
  {| world_of := l_world;
     with_world := fun w l =>
       {| l_world := w; peerList := peerList l; reason := reason l |} |}.

(** The state of one iteration of [for peer in peerList]: the object bound
    to [peer] is referenced from its slot of [peerList] and from nowhere
    else. *)
Record Frame := {
  f_world : World;
  f_reason : option string;
  peer : PiPeer
}.

#[global] Instance HasWorld_Frame : HasWorld Frame :=
  {| world_of := f_world;
     with_world := fun w f =>
       {| f_world := w; f_reason := f_reason f; peer := peer f |} |}.

Definition on_peer {R R'} (m : M Self R' Empty_set) : M Frame R R' :=
  fun f =>
    match m (f_world f, peer f) with
    | (Next x, _) => match x with end
    | (Return r, (w, p)) =>
        (Next r, {| f_world := w; f_reason := f_reason f; peer := p |})
    | (Raise e, (w, p)) =>
        (Raise e, {| f_world := w; f_reason := f_reason f; peer := p |})
    end.

Definition peer_get {R A} (f : PiPeer -> A) : M Frame R A :=
  gets (fun fr => f (peer fr)).

Definition assign_reason {R} (r : string) : M Frame R unit :=
  modify (fun f =>
    {| f_world := f_world f; f_reason := Some r; peer := peer f |}).

(** Reading the local [reason]. *)
Definition read_reason {R} : M Frame R string :=
  fun f =>
    match f_reason f with
    | Some r => (Next r, f)
    | None =>
        (Raise (Exn "UnboundLocalError"
                  "cannot access local variable 'reason' where it is not associated with a value"),
         f)
    end.

Definition nl : string := String (ascii_of_nat 10) EmptyString.

(** [PiPeer.PiPeer(hostname)]: a new object, then [__init__] on it.  The
    fields of the new object are placeholders until [__init__] assigns
    them, which it does before any of them is read. *)
Definition PiPeer_new {R} (hostname' : string) : M Locals R PiPeer :=
  fun l =>
    match PiPeer_init hostname' (l_world l, blank_peer) with
    | (Next _, (w, p)) => (Next p, with_world w l)
    | (Return x, _) => match x with end
    | (Raise e, (w, _)) => (Raise e, with_world w l)
    end.

Definition peerList_append {R} (p : PiPeer) : M Locals R unit :=
  modify (fun l =>
    {| l_world := l_world l; peerList := peerList l ++ [p];
       reason := reason l |}).

(** [peer.hostname] where [peer] is a [str]. *)
Definition str_hostname {S R} : M S R string :=
  raise (Exn "AttributeError" "'str' object has no attribute 'hostname'").

(** Subject and body of the alert for a peer that could not be
    initialized. *)
Definition init_alert_subject (h : string) : string :=
  SUBJECT_PREFIX ++ "Raspberry Pi Peer " ++ h ++ " could not be initialized!".

Definition init_alert_body (h : string) (why : string) : string :=
  "Healthcheck for peer " ++ h ++ " could not be initialized due to: " ++ why
    ++ "." ++ nl ++ nl ++ "Please investigate the issue.".

(** The body of the start-up loop [for peer in argDict["peerList"]]. *)
Definition create_peer (argDict : Args) (peer' : string)
  : M Locals Empty_set unit :=
  try_except
    (newPi <- PiPeer_new peer' ;;
     peerList_append newPi)
    (fun e =>
       log WARNING ("Error creating PiPeer object for " ++ peer' ++ ": "
                      ++ exn_text e) ;;
       log WARNING ("Peer " ++ peer' ++ " will NOT be checked!") ;;
       when (truthy (arg_email argDict))
         (log INFO ("Sending alert email for failed PiPeer initialization: "
                      ++ peer') ;;
          try_except
            (msg <- call_fn
                 (send_email (str_opt (arg_email argDict))
                    (arg_smtp_server argDict)
                    (init_alert_subject peer')
                    (init_alert_body peer' (exn_text e))) ;;
             h <- str_hostname ;;
             log INFO ("Successfully sent alert email to "
                         ++ str_opt (arg_email argDict) ++ " regarding peer "
                         ++ h ++ "."))
            (fun e' =>
               log ERROR ("Failed to send alert email for peer " ++ peer'
                            ++ ": " ++ exn_text e')))
       (* continue *)).

Fixpoint create_peers (argDict : Args) (hosts : list string)
  : M Locals Empty_set unit :=
  match hosts with
  | [] => ret tt
  | h :: rest => create_peer argDict h ;; create_peers argDict rest
  end.

(** Subject and body of the alert for an unhealthy peer, as the f-strings
    of the loop body build them. *)
Definition alert_subject (h : string) : string :=
  SUBJECT_PREFIX ++ "Raspberry Pi Peer " ++ h ++ " is UNHEALTHY!".

Definition alert_body (h : string) (ip : option string) (reason' : string)
  : string :=
  "Healthcheck for peer " ++ h ++ " (" ++ str_opt ip ++ ") failed due to: "
    ++ reason' ++ "." ++ nl ++ nl ++ "Please investigate the issue.".

(** The body of [for peer in peerList] in the health-check loop. *)
Definition check_peer (argDict : Args) : M Frame Empty_set unit :=
  h <- peer_get hostname ;;
  ip <- peer_get ip_address ;;
  log INFO ("Running healthchecks on peer: " ++ h ++ " (" ++ str_opt ip
              ++ ")") ;;
  (* Ensure IP can be resolved *)
  resolved_ip <- on_peer resolve_ip ;;
  match resolved_ip with
  | None =>
      h <- peer_get hostname ;;
      log ERROR ("Could not resolve IP for peer: " ++ h) ;;
      assign_reason "Hostname cannot be resolved"
  | Some _ => ret tt
  end ;;
  (* Ensure peer can be pinged *)
  ping_success <- on_peer (peer_ping (arg_timeout argDict)) ;;
  (if negb ping_success then
     h <- peer_get hostname ;;
     log ERROR ("Peer " ++ h ++ " is NOT responding to pings!") ;;
     assign_reason "Host cannot be pinged"
   else ret tt) ;;
  h <- peer_get hostname ;;
  st <- peer_get status ;;
  log INFO ("Peer " ++ h ++ " is " ++ st ++ ".") ;;
  (* Ensure peer responds to DNS queries if enabled *)
  when (arg_dnscheck argDict)
    (dns_success <- on_peer (test_dns (arg_timeout argDict)) ;;
     if negb dns_success then
       h <- peer_get hostname ;;
       log ERROR ("Peer " ++ h ++ " is NOT responding to DNS queries!") ;;
       assign_reason "Host not responding to DNS queries"
     else ret tt) ;;
  (* Send email if unhealthy *)
  st <- peer_get status ;;
  when (String.eqb st "unhealthy" && truthy (arg_email argDict))
    (h <- peer_get hostname ;;
     log INFO ("Sending alert email for unhealthy peer: " ++ h) ;;
     let subject := alert_subject h in
     ip <- peer_get ip_address ;;
     reason' <- read_reason ;;
     let body := alert_body h ip reason' in
     try_except
       (msg <- call_fn
            (send_email (str_opt (arg_email argDict))
               (arg_smtp_server argDict) subject body) ;;
        log INFO ("Successfully sent alert email to "
                    ++ str_opt (arg_email argDict) ++ " regarding peer "
                    ++ h ++ "."))
       (fun e =>
          log ERROR ("Failed to send alert email for peer " ++ h ++ ": "
                       ++ exn_text e))) ;;
  h <- peer_get hostname ;;
  log INFO ("Healthcheck completed for peer: " ++ h).

(** [for peer in peerList: body]: the body runs on each object in list
    order and mutates it in place; an exception leaves the loop with the
    objects as they are at that point. *)
Fixpoint for_each_peer {R} (body : M Frame R unit) (todo : list PiPeer)
  (w : World) (rsn : option string)
  : signal R unit * (World * option string * list PiPeer) :=
  match todo with
  | [] => (Next tt, (w, rsn, []))
  | p :: rest =>
      match body {| f_world := w; f_reason := rsn; peer := p |} with
      | (Next _, f) =>
          let '(sg, (w', rsn', rest')) :=
            for_each_peer body rest (f_world f) (f_reason f) in
          (sg, (w', rsn', peer f :: rest'))
      | (Return r, f) => (Return r, (f_world f, f_reason f, peer f :: rest))
      | (Raise e, f) => (Raise e, (f_world f, f_reason f, peer f :: rest))
      end
  end.

Definition for_peer_in_peerList {R} (body : M Frame R unit)
  : M Locals R unit :=
  fun l =>
    let '(sg, (w, rsn, ps)) :=
      for_each_peer body (peerList l) (l_world l) (reason l) in
    (sg, {| l_world := w; peerList := ps; reason := rsn |}).

(** [time.sleep(secs)] for an [int], which is what [--interval] gives:
    the conversion to nanoseconds comes first, the sign is tested on its
    result. *)
Definition time_sleep {S} `{HasWorld S} {R} (secs : Z) : M S R unit :=
  if (secs <? - sleep_max_secs) || (sleep_max_secs <? secs) then
    raise sleep_overflow
  else if secs <? 0 then
    raise sleep_error
  else
    modify (fun s => with_world (tick (EvSleep secs) (world_of s)) s).

(** One pass of the body of [while True], up to the test of
    [argDict["daemonize"]]. *)
Definition healthcheck_cycle (argDict : Args) : M Locals Empty_set unit :=
  for_peer_in_peerList (check_peer argDict) ;;
  log INFO "Healthchecks completed for all peers.".

(** [while True]: at most [fuel] passes; the result is [true] when the
    loop was left by [break] and [false] when passes remain to be run. *)
Fixpoint main_loop (argDict : Args) (fuel : nat)
  : M Locals Empty_set bool :=
  match fuel with
  | O => ret false
  | S fuel' =>
      healthcheck_cycle argDict ;;
      if negb (arg_daemonize argDict) then ret true
      else
        log INFO ("Sleeping for " ++ str_int (arg_interval argDict)
                    ++ " seconds before next healthcheck cycle ... ") ;;
        time_sleep (arg_interval argDict) ;;
        main_loop argDict fuel'
  end.

(** [main], from the first record logged after the logger is set up. *)
Definition main (argDict : Args) (fuel : nat) : M Locals Empty_set bool :=
  log INFO "Initializing pi-peer-healthcheck ... " ;;
  create_peers argDict (arg_peerList argDict) ;;
  main_loop argDict fuel.

Definition initial_locals (w : World) : Locals :=
  {| l_world := w; peerList := []; reason := None |}.

(** ** What one check sequence does, in closed form

    The answers the oracles give to the external calls of the check
    sequence that starts in world [w] on peer [p]: the resolution is its
    first external call, the ping its second, and the DNS query, when
    enabled, its third. *)
Definition resolve_result (w : World) (p : PiPeer) : string + exn :=
  gethostbyname env (clock w) (hostname p).

Definition ping_result (argDict : Args) (w : World) (p : PiPeer) : Z + exn :=
  subprocess_run env (S (clock w))
    (ping_command (arg_timeout argDict) (ip_address p)).

Definition dns_result (argDict : Args) (w : World) (p : PiPeer) : Z + exn :=
  subprocess_run env (S (S (clock w)))
    (dns_command (arg_timeout argDict) (hostname p) (ip_address p)).

(** A probe succeeds when [subprocess.run] returns and the return code is
    zero. *)
Definition probe_ok (r : Z + exn) : bool :=
  match r with
  | inl rc => rc =? 0
  | inr _ => false
  end.

Definition resolve_ok (r : string + exn) : bool :=
  match r with
  | inl _ => true
  | inr _ => false
  end.

Definition status_of_probe (ok : bool) : string :=
  if ok then "healthy" else "unhealthy".

Definition outcome_status (argDict : Args) (w : World) (p : PiPeer)
  : string :=
  if arg_dnscheck argDict then status_of_probe (probe_ok (dns_result argDict w p))
  else status_of_probe (probe_ok (ping_result argDict w p)).

Definition outcome_reason (argDict : Args) (w : World) (rsn : option string)
  (p : PiPeer) : option string :=
  if arg_dnscheck argDict && negb (probe_ok (dns_result argDict w p)) then
    Some "Host not responding to DNS queries"
  else if negb (probe_ok (ping_result argDict w p)) then
    Some "Host cannot be pinged"
  else if negb (resolve_ok (resolve_result w p)) then
    Some "Hostname cannot be resolved"
  else rsn.

Definition outcome_alert (argDict : Args) (w : World) (p : PiPeer) : bool :=
  String.eqb (outcome_status argDict w p) "unhealthy"
  && truthy (arg_email argDict).

(** The clock when the probes of the sequence are done. *)
Definition clock_after_probes (argDict : Args) (w : World) : nat :=
  if arg_dnscheck argDict then S (S (S (clock w))) else S (S (clock w)).

(** The reason an alert of this sequence carries: the alert is sent only
    when the last probe failed, and that probe assigned [reason]. *)
Definition alert_reason (argDict : Args) : string :=
  if arg_dnscheck argDict then "Host not responding to DNS queries"
  else "Host cannot be pinged".

Definition alert_result (argDict : Args) (w : World) (p : PiPeer)
  : option exn :=
  let c := clock_after_probes argDict w in
  let rcpt := str_opt (arg_email argDict) in
  let subject := alert_subject (hostname p) in
  let body := alert_body (hostname p) (ip_address p) (alert_reason argDict) in
  smtp_sendmail env c (arg_smtp_server argDict) EMAIL_FROM rcpt
    (mime_as_string env c EMAIL_FROM rcpt subject body).

Definition alert_events (argDict : Args) (w : World) (p : PiPeer)
  : list event :=
  let h := hostname p in
  let rcpt := str_opt (arg_email argDict) in
  let r := alert_result argDict w p in
  [ EvLog INFO ("Sending alert email for unhealthy peer: " ++ h);
    EvSend (arg_smtp_server argDict) EMAIL_FROM rcpt (alert_subject h)
      (alert_body h (ip_address p) (alert_reason argDict)) r;
    match r with
    | None =>
        EvLog INFO ("Successfully sent alert email to " ++ rcpt
                      ++ " regarding peer " ++ h ++ ".")
    | Some e =>
        EvLog ERROR ("Failed to send alert email for peer " ++ h ++ ": "
                       ++ "Failed to send email to " ++ rcpt ++ ": "
                       ++ exn_text e)
    end ].

Definition outcome_events (argDict : Args) (w : World) (p : PiPeer)
  : list event :=
  let h := hostname p in
  let ip := ip_address p in
  let r0 := resolve_result w p in
  let r1 := ping_result argDict w p in
  let r2 := dns_result argDict w p in
  [ EvLog INFO ("Running healthchecks on peer: " ++ h ++ " (" ++ str_opt ip
                  ++ ")");
    EvResolve h r0 ]
  ++ (if resolve_ok r0 then []
      else [EvLog ERROR ("Could not resolve IP for peer: " ++ h)])
  ++ [ EvRun (ping_command (arg_timeout argDict) ip) r1 ]
  ++ (if probe_ok r1 then []
      else [EvLog ERROR ("Peer " ++ h ++ " is NOT responding to pings!")])
  ++ [ EvLog INFO ("Peer " ++ h ++ " is " ++ status_of_probe (probe_ok r1)
                     ++ ".") ]
  ++ (if arg_dnscheck argDict then
        EvRun (dns_command (arg_timeout argDict) h ip) r2
        :: (if probe_ok r2 then []
            else [EvLog ERROR ("Peer " ++ h
                                 ++ " is NOT responding to DNS queries!")])
      else [])
  ++ (if outcome_alert argDict w p then alert_events argDict w p else [])
  ++ [ EvLog INFO ("Healthcheck completed for peer: " ++ h) ].

Definition check_peer_outcome (argDict : Args) (f : Frame) : Frame :=
  let w := f_world f in
  let p := peer f in
  {| f_world :=
       {| clock := (if outcome_alert argDict w p then S else fun c => c)
                     (clock_after_probes argDict w);
          trace := trace w ++ outcome_events argDict w p |};
     f_reason := outcome_reason argDict w (f_reason f) p;
     peer := set_status (outcome_status argDict w p) p |}.

(** ** What the start-up loop does for one host name, in closed form *)

(** The exception [__init__] raises when the name does not resolve; the
    resolver's own exception was swallowed by [resolve_ip]. *)
Definition init_error (h : string) : exn :=
  Exn "ValueError" ("Could not resolve hostname for peer: " ++ h).

Definition init_alert_result (argDict : Args) (w : World) (h : string)
  : option exn :=
  let c := S (clock w) in
  let rcpt := str_opt (arg_email argDict) in
  smtp_sendmail env c (arg_smtp_server argDict) EMAIL_FROM rcpt
    (mime_as_string env c EMAIL_FROM rcpt (init_alert_subject h)
       (init_alert_body h (exn_text (init_error h)))).

Definition init_alert_events (argDict : Args) (w : World) (h : string)
  : list event :=
  let rcpt := str_opt (arg_email argDict) in
  let r := init_alert_result argDict w h in
  [ EvLog INFO ("Sending alert email for failed PiPeer initialization: "
                  ++ h);
    EvSend (arg_smtp_server argDict) EMAIL_FROM rcpt (init_alert_subject h)
      (init_alert_body h (exn_text (init_error h))) r;
    EvLog ERROR
      ("Failed to send alert email for peer " ++ h ++ ": "
         ++ match r with
            | None => "'str' object has no attribute 'hostname'"
            | Some e =>
                "Failed to send email to " ++ rcpt ++ ": " ++ exn_text e
            end) ].

(** The events of an iteration of the start-up loop in which the name did
    not resolve. *)
Definition init_failure_events (argDict : Args) (w : World) (h : string)
  (e : exn) : list event :=
  [ EvResolve h (inr e);
    EvLog WARNING ("Error creating PiPeer object for " ++ h ++ ": "
                     ++ exn_text (init_error h));
    EvLog WARNING ("Peer " ++ h ++ " will NOT be checked!") ]
  ++ (if truthy (arg_email argDict)
      then init_alert_events argDict w h else []).

Definition create_peer_outcome (argDict : Args) (h : string) (l : Locals)
  : Locals :=
  let w := l_world l in
  match gethostbyname env (clock w) h with
  | inl ip =>
      {| l_world := tick (EvResolve h (inl ip)) w;
         peerList := peerList l
                       ++ [{| hostname := h; status := "unknown";
                              ip_address := Some ip |}];
         reason := reason l |}
  | inr e =>
      {| l_world :=
           {| clock := (if truthy (arg_email argDict) then S else fun c => c)
                         (S (clock w));
              trace := trace w ++ init_failure_events argDict w h e |};
         peerList := peerList l;
         reason := reason l |}
  end.

(** ** Clients of a peer object

    The three methods are all a client can call on a peer; a client is a
    sequence of such calls. *)
Inductive op :=
| OpResolve
| OpPing (timeout : Z)
| OpDns (timeout : Z).

Definition is_probe (o : op) : bool :=
  match o with
  | OpResolve => false
  | OpPing _ | OpDns _ => true
  end.

Definition apply_op (o : op) (s : Self) : Self :=
  match o with
  | OpResolve => snd (resolve_ip s)
  | OpPing t => snd (peer_ping t s)
  | OpDns t => snd (test_dns t s)
  end.

Definition apply_ops (ops : list op) (s : Self) : Self :=
  fold_left (fun s o => apply_op o s) ops s.

End Program.

(** ** Reading a trace *)

Definition resolve_hosts (evs : list event) : list string :=
  flat_map (fun ev => match ev with EvResolve h _ => [h] | _ => [] end) evs.

Definition run_commands (evs : list event) : list string :=
  flat_map (fun ev => match ev with EvRun c _ => [c] | _ => [] end) evs.

Definition is_send (ev : event) : bool :=
  match ev with EvSend _ _ _ _ _ _ => true | _ => false end.

(** The calls of [send_email], oldest first. *)
Definition sends (evs : list event) : list event := filter is_send evs.

Definition send_subjects (evs : list event) : list string :=
  flat_map (fun ev =>
              match ev with EvSend _ _ _ subject _ _ => [subject] | _ => [] end)
    evs.

(** Host names whose resolution succeeded, and those for which it failed. *)
Definition resolved_hosts (evs : list event) : list string :=
  flat_map (fun ev =>
              match ev with EvResolve h (inl _) => [h] | _ => [] end) evs.

Definition unresolved_hosts (evs : list event) : list string :=
  flat_map (fun ev =>
              match ev with EvResolve h (inr _) => [h] | _ => [] end) evs.

Definition unhealthy (p : PiPeer) : bool := String.eqb (status p) "unhealthy".

(** Every failed call of [send_email] in [evs] is followed at once by the
    ERROR record of the handler that caught it: the record names the host
    the mail was about (the one in its subject), the recipient and the
    error of the relay. *)
Fixpoint send_failures_logged (evs : list event) : Prop :=
  match evs with
  | [] => True
  | EvSend _ _ rcpt subject _ (Some e) :: rest =>
      (exists h,
         (subject = alert_subject h \/ subject = init_alert_subject h) /\
         hd_error rest
         = Some (EvLog ERROR ("Failed to send alert email for peer " ++ h
                                ++ ": " ++ "Failed to send email to " ++ rcpt
                                ++ ": " ++ exn_text e)))
      /\ send_failures_logged rest
  | _ :: rest => send_failures_logged rest
  end.

(** The probe commands one check sequence runs for a peer. *)
Definition probe_commands (argDict : Args) (p : PiPeer) : list string :=
  ping_command (arg_timeout argDict) (ip_address p)
  :: (if arg_dnscheck argDict
      then [dns_command (arg_timeout argDict) (hostname p) (ip_address p)]
      else []).

(** What a pass over the peers [ps] leaves behind: the peers [ps'] and the
    events [evs] it added to the trace. *)
Definition cycle_post (argDict : Args) (ps ps' : list PiPeer)
  (evs : list event) : Prop :=
  map hostname ps' = map hostname ps /\
  map ip_address ps' = map ip_address ps /\
  Forall (fun p => status p = "healthy" \/ status p = "unhealthy") ps' /\
  resolve_hosts evs = map hostname ps /\
  run_commands evs = flat_map (probe_commands argDict) ps /\
  send_subjects evs =
    (if truthy (arg_email argDict)
     then map (fun p => alert_subject (hostname p)) (filter unhealthy ps')
     else []) /\
  send_failures_logged evs.

Definition valid_status (s : string) : Prop :=
  s = "unknown" \/ s = "healthy" \/ s = "unhealthy".

Definition world0 : World := {| clock := 0; trace := [] |}.


(** ** Scenarios *)

(** A small network: [a.local] and [b.local] resolve, nothing else does;
    a command succeeds when it is listed in [ok_commands]; the relay takes
    every message unless [relay_down]. *)
Definition lan_env (ok_commands : list string) (relay_down : bool) : Env :=
  {| gethostbyname := fun _ h =>
       if String.eqb h "a.local" then inl "10.0.0.1"
       else if String.eqb h "b.local" then inl "10.0.0.2"
       else inr (Exn "gaierror" "[Errno -2] Name or service not known");
     subprocess_run := fun _ cmd =>
       if existsb (String.eqb cmd) ok_commands then inl 0 else inl 1;
     smtp_sendmail := fun _ _ _ _ _ =>
       if relay_down
       then Some (Exn "ConnectionRefusedError"
                    "[Errno 111] Connection refused")
       else None;
     mime_as_string := fun _ sender rcpt subject body =>
       "From: " ++ sender ++ nl ++ "To: " ++ rcpt ++ nl ++ "Subject: "
         ++ subject ++ nl ++ nl ++ body;
     local_hostname := "pi0" |}.

(** The same network, except that [a.local] resolves to 10.0.0.1 for the
    first external call only and to 10.0.0.2 afterwards. *)
Definition moving_env : Env :=
  {| gethostbyname := fun c h =>
       if String.eqb h "a.local"
       then (if Nat.eqb c 0 then inl "10.0.0.1" else inl "10.0.0.2")
       else inr (Exn "gaierror" "[Errno -2] Name or service not known");
     subprocess_run := fun _ _ => inl 0;
     smtp_sendmail := fun _ _ _ _ _ => None;
     mime_as_string := fun _ _ _ _ body => body;
     local_hostname := "pi0" |}.

Definition lan_args (peers : list string) (dns : bool)
  (email : option string) : Args :=
  {| arg_peerList := peers; arg_daemonize := false; arg_timeout := 5;
     arg_dnscheck := dns; arg_email := email; arg_interval := 300;
     arg_smtp_server := "mail.protonmail.ch" |}.

Definition ops_mail : option string := Some "ops@example.org".

Definition peer_a : PiPeer :=
  {| hostname := "a.local"; status := "unknown";
     ip_address := Some "10.0.0.1" |}.

Definition peer_b : PiPeer :=
  {| hostname := "b.local"; status := "unknown";
     ip_address := Some "10.0.0.2" |}.

Definition frame0 (rsn : option string) (p : PiPeer) : Frame :=
  {| f_world := world0; f_reason := rsn; peer := p |}.

(** Only the DNS query to [a.local] is answered; pings are lost. *)
Definition masked_env : Env :=
  lan_env ["timeout 5 nslookup a.local 10.0.0.1"] false.

(** Nothing answers. *)
Definition dead_env : Env := lan_env [] false.

(** Only [a.local] answers pings. *)
Definition half_env : Env := lan_env ["ping -c 4 -W 5 10.0.0.1"] false.

(** [a.local] answers pings and DNS queries. *)
Definition healthy_env : Env :=
  lan_env ["ping -c 4 -W 5 10.0.0.1"; "timeout 5 nslookup a.local 10.0.0.1"]
    false.

(** ** More readers and scenarios *)

(** The lengths of the sleeps, oldest first. *)
Definition sleep_lengths (evs : list event) : list Z :=
  flat_map (fun ev => match ev with EvSleep secs => [secs] | _ => [] end) evs.

(** A call of [send_email] goes through the configured relay, from
    [sender], to the configured recipient. *)
Definition addressed (argDict : Args) (sender : string) (ev : event) : Prop :=
  match ev with
  | EvSend server sender' rcpt _ _ _ =>
      server = arg_smtp_server argDict /\ sender' = sender
      /\ rcpt = str_opt (arg_email argDict)
  | _ => True
  end.


Definition daemon_args (peers : list string) (interval : Z) : Args :=
  {| arg_peerList := peers; arg_daemonize := true; arg_timeout := 5;
     arg_dnscheck := false; arg_email := ops_mail; arg_interval := interval;
     arg_smtp_server := "mail.protonmail.ch" |}.

(** [main]'s locals when the start-up loop has created [a.local]. *)
Definition locals_a : Locals :=
  {| l_world := world0; peerList := [peer_a]; reason := None |}.

(** * Properties *)

Section Properties.

Variable env : Env.

(** ** What a call of each method and of [send_email] does *)

Lemma resolve_ip_run (w : World) (p : PiPeer) :
  let r := gethostbyname env (clock w) (hostname p) in
  resolve_ip env (w, p) =
  (Return (match r with inl ip => Some ip | inr _ => None end),
   (tick (EvResolve (hostname p) r) w, p)).
Proof.
  cbv [resolve_ip try_except bind self_get gets socket_gethostbyname return_
       self_set modify world_of with_world HasWorld_Self fst snd].
  destruct (gethostbyname env (clock w) (hostname p)); reflexivity.
Qed.

Lemma peer_ping_run (t : Z) (w : World) (p : PiPeer) :
  let r := subprocess_run env (clock w) (ping_command t (ip_address p)) in
  peer_ping env t (w, p) =
  (Return (probe_ok r),
   (tick (EvRun (ping_command t (ip_address p)) r) w,
    set_status (status_of_probe (probe_ok r)) p)).
Proof.
  cbv [peer_ping try_except bind self_get gets subprocess_run_returncode
       return_ self_set modify when ret world_of with_world HasWorld_Self
       fst snd probe_ok status_of_probe].
  destruct (subprocess_run env (clock w) _) as [rc|e]; [|reflexivity].
  destruct (rc =? 0); reflexivity.
Qed.

Lemma test_dns_run (t : Z) (w : World) (p : PiPeer) :
  let r := subprocess_run env (clock w)
             (dns_command t (hostname p) (ip_address p)) in
  test_dns env t (w, p) =
  (Return (probe_ok r),
   (tick (EvRun (dns_command t (hostname p) (ip_address p)) r) w,
    set_status (status_of_probe (probe_ok r)) p)).
Proof.
  cbv [test_dns try_except bind self_get gets subprocess_run_returncode
       return_ self_set modify when ret world_of with_world HasWorld_Self
       fst snd probe_ok status_of_probe].
  destruct (subprocess_run env (clock w) _) as [rc|e]; [|reflexivity].
  destruct (rc =? 0); reflexivity.
Qed.

Lemma send_email_run (rcpt server subject body : string) (w : World) :
  let msg := mime_as_string env (clock w) (EMAIL_FROM env) rcpt subject body in
  let r := smtp_sendmail env (clock w) server (EMAIL_FROM env) rcpt msg in
  send_email env rcpt server subject body w =
  (match r with
   | None => Return msg
   | Some e =>
       Raise (Exn "RuntimeError"
                ("Failed to send email to " ++ rcpt ++ ": " ++ exn_text e))
   end,
   tick (EvSend server (EMAIL_FROM env) rcpt subject body r) w).
Proof.
  cbv [send_email try_except bind gets smtp_session return_ raise].
  destruct (smtp_sendmail env (clock w) _ _ _ _); reflexivity.
Qed.

(** ** The two loop bodies agree with their closed forms

    A body is evaluated statement by statement: the formatters and the
    callees stay folded, each call is replaced by what the lemmas above say
    it does, and the evaluation splits where it depends on an oracle. *)

Local Arguments String.append : simpl never.
Local Arguments resolve_ip : simpl never.
Local Arguments peer_ping : simpl never.
Local Arguments test_dns : simpl never.
Local Arguments send_email : simpl never.
Local Arguments str_int : simpl never.
Local Arguments str_opt : simpl never.
Local Arguments truthy : simpl never.
Local Arguments String.eqb : simpl nomatch.
Local Arguments ping_command : simpl never.
Local Arguments dns_command : simpl never.
Local Arguments alert_subject : simpl never.
Local Arguments alert_body : simpl never.
Local Arguments EMAIL_FROM : simpl never.
Local Arguments PiPeer_init : simpl never.
Local Arguments init_alert_subject : simpl never.
Local Arguments init_alert_body : simpl never.

Ltac trace_norm :=
  unfold modify, tick, record_event, set_status; cbn;
  repeat (rewrite <- app_assoc; cbn).

Ltac py_unfold :=
  unfold bind, ret, return_, raise, try_except, gets, modify, when, log,
    on_peer, peer_get, assign_reason, read_reason, call_fn, call_method.

Ltac py_case :=
  match goal with
  | H : ?x = _ |- context [?x] => rewrite H
  | |- context [match gethostbyname ?e ?c ?h with _ => _ end] =>
      destruct (gethostbyname e c h) eqn:?
  | |- context [probe_ok (subprocess_run ?e ?c ?h)] =>
      destruct (probe_ok (subprocess_run e c h)) eqn:?
  | |- context [match smtp_sendmail ?e ?c ?a ?b ?d ?m with _ => _ end] =>
      destruct (smtp_sendmail e c a b d m) eqn:?
  end.

Ltac py_go :=
  repeat first
    [ rewrite resolve_ip_run | rewrite peer_ping_run | rewrite test_dns_run
    | rewrite send_email_run | progress cbn | py_case ].

Lemma check_peer_run (argDict : Args) (f : Frame) :
  check_peer env argDict f = (Next tt, check_peer_outcome env argDict f).
Proof.
  destruct f as [w rsn p].
  unfold check_peer, check_peer_outcome, outcome_events, outcome_reason,
    outcome_alert, outcome_status, alert_events, alert_result,
    clock_after_probes, alert_reason, resolve_result, ping_result, dns_result.
  py_unfold.
  destruct (arg_dnscheck argDict); destruct (truthy (arg_email argDict));
    py_go; trace_norm; reflexivity.
Qed.

Lemma PiPeer_init_run (h : string) (w : World) (p : PiPeer) :
  let r := gethostbyname env (clock w) h in
  PiPeer_init env h (w, p) =
  (match r with
   | inl _ => Next tt
   | inr _ => Raise (init_error h)
   end,
   (tick (EvResolve h r) w,
    {| hostname := h; status := "unknown";
       ip_address := match r with inl ip => Some ip | inr _ => None end |})).
Proof.
  unfold PiPeer_init, init_error. py_unfold. unfold self_set, self_get, modify, gets.
  cbn. rewrite resolve_ip_run. cbn.
  destruct (gethostbyname env (clock w) h); reflexivity.
Qed.

Lemma create_peer_run (argDict : Args) (h : string) (l : Locals) :
  create_peer env argDict h l = (Next tt, create_peer_outcome env argDict h l).
Proof.
  destruct l as [w ps rsn].
  unfold create_peer, create_peer_outcome, init_failure_events,
    init_alert_events, init_alert_result, PiPeer_new, peerList_append,
    str_hostname.
  py_unfold. cbn.
  rewrite PiPeer_init_run. cbn.
  destruct (gethostbyname env (clock w) h) as [ip|e]; cbn; [reflexivity|].
  destruct (truthy (arg_email argDict)); py_go; trace_norm; reflexivity.
Qed.

(** ** Reading the events of one check sequence *)

Lemma resolve_hosts_app (a b : list event) :
  resolve_hosts (a ++ b) = (resolve_hosts a ++ resolve_hosts b)%list.
Proof. apply flat_map_app. Qed.

Lemma run_commands_app (a b : list event) :
  run_commands (a ++ b) = (run_commands a ++ run_commands b)%list.
Proof. apply flat_map_app. Qed.

Lemma send_subjects_app (a b : list event) :
  send_subjects (a ++ b) = (send_subjects a ++ send_subjects b)%list.
Proof. apply flat_map_app. Qed.

Lemma resolved_hosts_app (a b : list event) :
  resolved_hosts (a ++ b) = (resolved_hosts a ++ resolved_hosts b)%list.
Proof. apply flat_map_app. Qed.

Lemma unresolved_hosts_app (a b : list event) :
  unresolved_hosts (a ++ b) = (unresolved_hosts a ++ unresolved_hosts b)%list.
Proof. apply flat_map_app. Qed.

Lemma sends_app (a b : list event) :
  sends (a ++ b) = (sends a ++ sends b)%list.
Proof. apply filter_app. Qed.

Lemma send_failures_logged_app (a b : list event) :
  send_failures_logged a -> send_failures_logged b ->
  send_failures_logged (a ++ b).
Proof.
  intros Ha Hb. induction a as [|ev a IH]; [exact Hb|].
  destruct ev as [? ?|? ?|? ? ? ? ? [e|]|? ?|?];
    cbn [app send_failures_logged] in *; auto.
  destruct Ha as [[h [Hsub Hnext]] Ha]. split; [|auto].
  exists h. split; [exact Hsub|].
  destruct a; [discriminate Hnext | exact Hnext].
Qed.

Ltac outcome_cases argDict w p :=
  unfold outcome_events, alert_events;
  destruct (resolve_ok (resolve_result env w p));
  destruct (probe_ok (ping_result env argDict w p));
  destruct (arg_dnscheck argDict);
  destruct (probe_ok (dns_result env argDict w p));
  destruct (outcome_alert env argDict w p);
  destruct (alert_result env argDict w p).

Lemma outcome_resolve_hosts (argDict : Args) (w : World) (p : PiPeer) :
  resolve_hosts (outcome_events env argDict w p) = [hostname p].
Proof. outcome_cases argDict w p; reflexivity. Qed.

Lemma outcome_run_commands (argDict : Args) (w : World) (p : PiPeer) :
  run_commands (outcome_events env argDict w p) =
  ping_command (arg_timeout argDict) (ip_address p)
  :: (if arg_dnscheck argDict
      then [dns_command (arg_timeout argDict) (hostname p) (ip_address p)]
      else []).
Proof. outcome_cases argDict w p; reflexivity. Qed.

Lemma outcome_sends (argDict : Args) (w : World) (p : PiPeer) :
  sends (outcome_events env argDict w p) =
  if outcome_alert env argDict w p then
    [EvSend (arg_smtp_server argDict) (EMAIL_FROM env)
       (str_opt (arg_email argDict)) (alert_subject (hostname p))
       (alert_body (hostname p) (ip_address p) (alert_reason argDict))
       (alert_result env argDict w p)]
  else [].
Proof.
  outcome_cases argDict w p; reflexivity.
Qed.

Lemma outcome_send_subjects (argDict : Args) (w : World) (p : PiPeer) :
  send_subjects (outcome_events env argDict w p) =
  if outcome_alert env argDict w p then [alert_subject (hostname p)] else [].
Proof.
  outcome_cases argDict w p; reflexivity.
Qed.

Lemma outcome_failures_logged (argDict : Args) (w : World) (p : PiPeer) :
  send_failures_logged (outcome_events env argDict w p).
Proof.
  outcome_cases argDict w p;
    cbn [app send_failures_logged hd_error]; auto;
    (split; [exists (hostname p); auto | exact I]).
Qed.

Lemma outcome_alert_unhealthy (argDict : Args) (f : Frame) :
  outcome_alert env argDict (f_world f) (peer f) =
  unhealthy (peer (check_peer_outcome env argDict f))
  && truthy (arg_email argDict).
Proof. reflexivity. Qed.

Lemma init_failure_resolve_hosts argDict w h e :
  resolve_hosts (init_failure_events env argDict w h e) = [h].
Proof.
  unfold init_failure_events, init_alert_events.
  destruct (truthy (arg_email argDict)); reflexivity.
Qed.

Lemma init_failure_resolved_hosts argDict w h e :
  resolved_hosts (init_failure_events env argDict w h e) = [].
Proof.
  unfold init_failure_events, init_alert_events.
  destruct (truthy (arg_email argDict)); reflexivity.
Qed.

Lemma init_failure_unresolved_hosts argDict w h e :
  unresolved_hosts (init_failure_events env argDict w h e) = [h].
Proof.
  unfold init_failure_events, init_alert_events.
  destruct (truthy (arg_email argDict)); reflexivity.
Qed.

Lemma init_failure_send_subjects argDict w h e :
  send_subjects (init_failure_events env argDict w h e) =
  if truthy (arg_email argDict) then [init_alert_subject h] else [].
Proof.
  unfold init_failure_events, init_alert_events.
  destruct (truthy (arg_email argDict)); reflexivity.
Qed.

Lemma init_failure_logged argDict w h e :
  send_failures_logged (init_failure_events env argDict w h e).
Proof.
  unfold init_failure_events, init_alert_events.
  destruct (truthy (arg_email argDict));
    [destruct (init_alert_result env argDict w h)|];
    cbn [app send_failures_logged hd_error]; auto.
  split; [exists h; auto | exact I].
Qed.

(** ** The loops *)

Lemma for_each_peer_post (argDict : Args) (ps : list PiPeer) :
  forall (w : World) (rsn : option string),
  exists w' rsn' ps' evs,
    for_each_peer (check_peer env argDict) ps w rsn
      = (Next tt, (w', rsn', ps')) /\
    trace w' = (trace w ++ evs)%list /\
    cycle_post argDict ps ps' evs.
Proof.
  induction ps as [|p ps IH]; intros w rsn.
  - exists w, rsn, [], []. cbn. rewrite app_nil_r.
    repeat split; try reflexivity; try constructor.
    destruct (truthy (arg_email argDict)); reflexivity.
  - cbn [for_each_peer]. rewrite check_peer_run.
    set (f := {| f_world := w; f_reason := rsn; peer := p |}).
    destruct (IH (f_world (check_peer_outcome env argDict f))
                 (f_reason (check_peer_outcome env argDict f)))
      as (w' & rsn' & ps' & evs & Hrun & Htr & Hh & Hip & Hst & Hres & Hcmd
          & Hsub & Hlog).
    rewrite Hrun.
    exists w', rsn', (peer (check_peer_outcome env argDict f) :: ps'),
      (outcome_events env argDict w p ++ evs)%list.
    split; [reflexivity|]. split.
    { rewrite Htr. cbn [check_peer_outcome f_world trace].
      rewrite <- app_assoc. reflexivity. }
    unfold cycle_post. cbn [map flat_map filter].
    rewrite Hh, Hip, resolve_hosts_app, run_commands_app, send_subjects_app,
      outcome_resolve_hosts, outcome_run_commands, outcome_send_subjects,
      Hres, Hcmd, Hsub.
    repeat split; try reflexivity.
    + constructor; [|exact Hst]. cbn. unfold outcome_status, status_of_probe.
      destruct (arg_dnscheck argDict);
        [destruct (probe_ok (dns_result env argDict w p))
        |destruct (probe_ok (ping_result env argDict w p))]; auto.
    + change (outcome_alert env argDict w p)
        with (unhealthy (peer (check_peer_outcome env argDict f))
              && truthy (arg_email argDict)).
      destruct (unhealthy (peer (check_peer_outcome env argDict f)));
        destruct (truthy (arg_email argDict)); reflexivity.
    + apply send_failures_logged_app;
        [apply outcome_failures_logged | exact Hlog].
Qed.

Lemma healthcheck_cycle_post (argDict : Args) (l : Locals) :
  exists l' evs,
    healthcheck_cycle env argDict l = (Next tt, l') /\
    trace (l_world l') = (trace (l_world l) ++ evs)%list /\
    cycle_post argDict (peerList l) (peerList l') evs.
Proof.
  destruct (for_each_peer_post argDict (peerList l) (l_world l) (reason l))
    as (w' & rsn' & ps' & evs & Hrun & Htr & Hh & Hip & Hst & Hres & Hcmd
        & Hsub & Hlog).
  unfold healthcheck_cycle, for_peer_in_peerList, bind. rewrite Hrun.
  eexists.
  exists (evs ++ [EvLog INFO "Healthchecks completed for all peers."])%list.
  split; [reflexivity|]. split.
  { cbn [l_world trace record_event with_world HasWorld_Locals world_of].
    rewrite Htr, <- app_assoc. reflexivity. }
  unfold cycle_post. cbn [peerList].
  rewrite resolve_hosts_app, run_commands_app, send_subjects_app, Hres, Hcmd,
    Hsub. cbn. rewrite !app_nil_r.
  repeat split; try assumption; try reflexivity.
  apply send_failures_logged_app; [exact Hlog | exact I].
Qed.

Lemma main_loop_post (argDict : Args) (fuel : nat) :
  forall l : Locals,
  exists sg l',
    main_loop env argDict fuel l = (sg, l') /\
    ((exists b, sg = Next b) \/
     (sg = Raise sleep_error /\ arg_daemonize argDict = true
      /\ - sleep_max_secs <= arg_interval argDict < 0) \/
     (sg = Raise sleep_overflow /\ arg_daemonize argDict = true
      /\ (arg_interval argDict < - sleep_max_secs
          \/ sleep_max_secs < arg_interval argDict))) /\
    map hostname (peerList l') = map hostname (peerList l) /\
    map ip_address (peerList l') = map ip_address (peerList l).
Proof.
  induction fuel as [|fuel IH]; intros l.
  - exists (Next false), l. repeat split; eauto.
  - destruct (healthcheck_cycle_post argDict l)
      as (l1 & evs & Hrun & _ & Hh & Hip & _).
    cbn [main_loop]. unfold bind at 1. rewrite Hrun.
    destruct (arg_daemonize argDict) eqn:Hd; cbn [negb].
    + unfold bind, log, modify, time_sleep.
      destruct ((arg_interval argDict <? - sleep_max_secs)
                || (sleep_max_secs <? arg_interval argDict)) eqn:Hover.
      * eexists _, _. split; [reflexivity|]. cbn.
        apply orb_true_iff in Hover. rewrite !Z.ltb_lt in Hover.
        repeat split; auto.
      * apply orb_false_iff in Hover. rewrite !Z.ltb_ge in Hover.
        destruct (arg_interval argDict <? 0) eqn:Hneg.
        -- eexists _, _. split; [reflexivity|]. cbn.
           apply Z.ltb_lt in Hneg. repeat split; auto. right. left.
           repeat split; auto. apply Hover.
        -- cbn.
           match goal with |- context [main_loop env argDict fuel ?l2] =>
             destruct (IH l2) as (sg & l' & Hloop & Hsg & Hh' & Hip') end.
           exists sg, l'. rewrite Hloop. cbn in Hh', Hip'.
           repeat split; auto; congruence.
    + exists (Next true), l1. repeat split; eauto.
Qed.

Lemma create_peers_post (argDict : Args) (hosts : list string) :
  forall l : Locals,
  exists l' news evs,
    create_peers env argDict hosts l = (Next tt, l') /\
    trace (l_world l') = (trace (l_world l) ++ evs)%list /\
    reason l' = reason l /\
    peerList l' = (peerList l ++ news)%list /\
    Forall (fun p => status p = "unknown") news /\
    map hostname news = resolved_hosts evs /\
    resolve_hosts evs = hosts /\
    send_subjects evs =
      (if truthy (arg_email argDict)
       then map init_alert_subject (unresolved_hosts evs) else []) /\
    send_failures_logged evs.
Proof.
  induction hosts as [|h hosts IH]; intros l.
  - exists l, [], []. cbn. rewrite !app_nil_r.
    repeat split; try reflexivity; try constructor.
    destruct (truthy (arg_email argDict)); reflexivity.
  - cbn [create_peers]. unfold bind. rewrite create_peer_run.
    destruct (IH (create_peer_outcome env argDict h l))
      as (l' & news & evs & Hrun & Htr & Hrsn & Hps & Hst & Hh & Hres & Hsub
          & Hlog).
    rewrite Hrun. clear Hrun IH.
    unfold create_peer_outcome in *.
    destruct (gethostbyname env (clock (l_world l)) h) as [ip|e] eqn:Hr.
    + cbn [l_world tick trace peerList reason clock] in Htr, Hrsn, Hps.
      exists l',
        ({| hostname := h; status := "unknown"; ip_address := Some ip |}
           :: news),
        ([EvResolve h (inl ip)] ++ evs)%list.
      rewrite resolve_hosts_app, send_subjects_app, resolved_hosts_app,
        unresolved_hosts_app, Hres, Hsub, Htr, Hps.
      rewrite <- (app_assoc (trace (l_world l))),
        <- (app_assoc (peerList l)).
      cbn [map]. rewrite Hh.
      repeat split; auto.
    + cbn [l_world tick trace peerList reason clock] in Htr, Hrsn, Hps.
      exists l', news,
        (init_failure_events env argDict (l_world l) h e ++ evs)%list.
      rewrite resolve_hosts_app, send_subjects_app, resolved_hosts_app,
        unresolved_hosts_app, init_failure_resolve_hosts,
        init_failure_resolved_hosts, init_failure_unresolved_hosts,
        init_failure_send_subjects, Hres, Hsub, Htr.
      rewrite <- (app_assoc (trace (l_world l))).
      repeat split; auto.
      * destruct (truthy (arg_email argDict)); reflexivity.
      * apply send_failures_logged_app;
          [apply init_failure_logged | exact Hlog].
Qed.

Lemma sends_length (evs : list event) :
  length (sends evs) = length (send_subjects evs).
Proof.
  induction evs as [|ev evs IH]; [reflexivity|].
  destruct ev; cbn; auto.
Qed.

Lemma outcome_ping_event (argDict : Args) (w : World) (p : PiPeer) :
  In (EvRun (ping_command (arg_timeout argDict) (ip_address p))
        (ping_result env argDict w p))
     (outcome_events env argDict w p).
Proof.
  unfold outcome_events. rewrite !in_app_iff. do 2 right. left. left.
  reflexivity.
Qed.

Lemma outcome_dns_event (argDict : Args) (w : World) (p : PiPeer) :
  arg_dnscheck argDict = true ->
  In (EvRun (dns_command (arg_timeout argDict) (hostname p) (ip_address p))
        (dns_result env argDict w p))
     (outcome_events env argDict w p).
Proof.
  intros Hd. unfold outcome_events. rewrite Hd, !in_app_iff.
  do 5 right. left. left. reflexivity.
Qed.

(** Once a probe has run, the status stays one of the two probe verdicts. *)
Lemma apply_op_verdict (o : op) (s : Self) :
  (is_probe o = true \/ status (snd s) = "healthy"
   \/ status (snd s) = "unhealthy") ->
  status (snd (apply_op env o s)) = "healthy"
  \/ status (snd (apply_op env o s)) = "unhealthy".
Proof.
  destruct s as [w p]. destruct o as [|t|t]; cbn [apply_op is_probe snd].
  - rewrite resolve_ip_run. intros [H|H]; [discriminate H | exact H].
  - rewrite peer_ping_run. intros _. cbn.
    destruct (probe_ok _); cbn; auto.
  - rewrite test_dns_run. intros _. cbn.
    destruct (probe_ok _); cbn; auto.
Qed.

Lemma apply_ops_verdict (ops : list op) :
  forall s : Self,
    status (snd s) = "healthy" \/ status (snd s) = "unhealthy" ->
    status (snd (apply_ops env ops s)) = "healthy"
    \/ status (snd (apply_ops env ops s)) = "unhealthy".
Proof.
  induction ops as [|o ops IH]; intros s Hs; [exact Hs|].
  change (apply_ops env (o :: ops) s)
    with (apply_ops env ops (apply_op env o s)).
  apply IH. apply apply_op_verdict. auto.
Qed.

Lemma apply_ops_status (ops : list op) :
  forall s : Self,
    (existsb is_probe ops = false
     /\ status (snd (apply_ops env ops s)) = status (snd s))
    \/ (existsb is_probe ops = true
        /\ (status (snd (apply_ops env ops s)) = "healthy"
            \/ status (snd (apply_ops env ops s)) = "unhealthy")).
Proof.
  induction ops as [|o ops IH]; intros s; [left; auto|].
  change (apply_ops env (o :: ops) s)
    with (apply_ops env ops (apply_op env o s)).
  cbn [existsb].
  destruct (is_probe o) eqn:Ho; cbn [orb].
  - right. split; [reflexivity|].
    apply apply_ops_verdict, apply_op_verdict. auto.
  - destruct o; try discriminate Ho.
    destruct (IH (apply_op env OpResolve s)) as [[Hn Hs]|[Hy Hs]].
    + left. split; [exact Hn|].
      rewrite Hs. destruct s as [w p]. cbn [apply_op].
      rewrite resolve_ip_run. reflexivity.
    + right. auto.
Qed.

Lemma main_run (argDict : Args) (fuel : nat) (w : World) :
  exists l0 news evs0,
    main env argDict fuel (initial_locals w) = main_loop env argDict fuel l0
    /\
    trace (l_world l0)
      = (trace w ++ EvLog INFO "Initializing pi-peer-healthcheck ... "
           :: evs0)%list /\
    peerList l0 = news /\
    map hostname news = resolved_hosts evs0 /\
    resolve_hosts evs0 = arg_peerList argDict /\
    send_subjects evs0 =
      (if truthy (arg_email argDict)
       then map init_alert_subject (unresolved_hosts evs0) else []) /\
    send_failures_logged evs0.
Proof.
  set (l_init := with_world
         (record_event (EvLog INFO "Initializing pi-peer-healthcheck ... ") w)
         (initial_locals w)).
  destruct (create_peers_post argDict (arg_peerList argDict) l_init)
    as (l0 & news & evs0 & Hrun & Htr & _ & Hps & _ & Hh & Hres & Hsub & Hlog).
  exists l0, news, evs0.
  split.
  { change (main env argDict fuel (initial_locals w))
      with (bind (create_peers env argDict (arg_peerList argDict))
              (fun _ => main_loop env argDict fuel) l_init).
    unfold bind. rewrite Hrun. reflexivity. }
  split.
  { rewrite Htr. cbn [l_init with_world HasWorld_Locals l_world record_event
                      trace initial_locals].
    rewrite <- app_assoc. reflexivity. }
  auto.
Qed.

(** * The claims *)

(** C1.  With DNS-checking enabled, a failed ping followed by a successful
    DNS probe leaves the peer "healthy": [test_dns] assigns the status
    unconditionally, so the ping verdict is lost, no alert is sent, and
    the reason assigned for the ping failure is never reported. *)
Theorem C1_dns_success_masks_ping_failure (argDict : Args) (f : Frame) :
  arg_dnscheck argDict = true ->
  probe_ok (ping_result env argDict (f_world f) (peer f)) = false ->
  probe_ok (dns_result env argDict (f_world f) (peer f)) = true ->
  exists f' evs,
    check_peer env argDict f = (Next tt, f') /\
    trace (f_world f') = (trace (f_world f) ++ evs)%list /\
    In (EvRun (ping_command (arg_timeout argDict) (ip_address (peer f)))
          (ping_result env argDict (f_world f) (peer f))) evs /\
    In (EvRun (dns_command (arg_timeout argDict) (hostname (peer f))
                 (ip_address (peer f)))
          (dns_result env argDict (f_world f) (peer f))) evs /\
    status (peer f') = "healthy" /\
    f_reason f' = Some "Host cannot be pinged" /\
    sends evs = [].
Proof.
  intros Hd Hping Hdns.
  exists (check_peer_outcome env argDict f),
    (outcome_events env argDict (f_world f) (peer f)).
  split; [apply check_peer_run|]. split; [reflexivity|].
  split; [apply outcome_ping_event|].
  split; [apply outcome_dns_event; exact Hd|].
  rewrite outcome_sends.
  unfold check_peer_outcome, outcome_alert, outcome_status, outcome_reason.
  cbn [peer f_reason set_status status].
  rewrite Hd, Hping, Hdns. repeat split; reflexivity.
Qed.

(** C2 (amended).  Each check sequence resolves the peer's host name once,
    but the answer is only looked at for logging: the stored address is
    the one kept at construction, it is never assigned afterwards, and the
    ping that follows runs on it whether or not the resolution
    succeeded. *)
Theorem C2_address_fixed_at_construction (argDict : Args) :
  (forall f : Frame,
     exists f' evs,
       check_peer env argDict f = (Next tt, f') /\
       trace (f_world f') = (trace (f_world f) ++ evs)%list /\
       resolve_hosts evs = [hostname (peer f)] /\
       ip_address (peer f') = ip_address (peer f) /\
       hd_error (run_commands evs)
         = Some (ping_command (arg_timeout argDict) (ip_address (peer f))))
  /\
  (forall (fuel : nat) (l : Locals),
     map ip_address (peerList (snd (main_loop env argDict fuel l)))
       = map ip_address (peerList l)).
Proof.
  split.
  - intros f.
    exists (check_peer_outcome env argDict f),
      (outcome_events env argDict (f_world f) (peer f)).
    rewrite outcome_resolve_hosts, outcome_run_commands.
    repeat split. apply check_peer_run.
  - intros fuel l.
    destruct (main_loop_post argDict fuel l) as (sg & l' & Hrun & _ & _ & Hip).
    rewrite Hrun. exact Hip.
Qed.

(** C3 (amended).  With only the ping check enabled, a failed ping leaves
    the peer "unhealthy" with the reason "Host cannot be pinged", and that
    reason is the one in the body of the alert, which is sent when a
    recipient is configured. *)
Theorem C3_ping_failure_reason (argDict : Args) (f : Frame) :
  arg_dnscheck argDict = false ->
  probe_ok (ping_result env argDict (f_world f) (peer f)) = false ->
  exists f' evs,
    check_peer env argDict f = (Next tt, f') /\
    trace (f_world f') = (trace (f_world f) ++ evs)%list /\
    In (EvRun (ping_command (arg_timeout argDict) (ip_address (peer f)))
          (ping_result env argDict (f_world f) (peer f))) evs /\
    status (peer f') = "unhealthy" /\
    f_reason f' = Some "Host cannot be pinged" /\
    sends evs =
      (if truthy (arg_email argDict) then
         [EvSend (arg_smtp_server argDict) (EMAIL_FROM env)
            (str_opt (arg_email argDict))
            (alert_subject (hostname (peer f)))
            (alert_body (hostname (peer f)) (ip_address (peer f))
               "Host cannot be pinged")
            (alert_result env argDict (f_world f) (peer f))]
       else []).
Proof.
  intros Hd Hping.
  exists (check_peer_outcome env argDict f),
    (outcome_events env argDict (f_world f) (peer f)).
  split; [apply check_peer_run|]. split; [reflexivity|].
  split; [apply outcome_ping_event|].
  rewrite outcome_sends.
  unfold check_peer_outcome, outcome_alert, outcome_status, outcome_reason,
    alert_reason.
  cbn [peer f_reason set_status status].
  rewrite Hd, Hping. repeat split; reflexivity.
Qed.

(** C4.  With DNS-checking enabled, when both the ping and the DNS probe
    fail, the reason left by the sequence is the DNS one, "Host not
    responding to DNS queries": the assignment made for the ping failure is
    overwritten, and the alert carries the DNS reason. *)
Theorem C4_last_failure_wins (argDict : Args) (f : Frame) :
  arg_dnscheck argDict = true ->
  probe_ok (ping_result env argDict (f_world f) (peer f)) = false ->
  probe_ok (dns_result env argDict (f_world f) (peer f)) = false ->
  exists f' evs,
    check_peer env argDict f = (Next tt, f') /\
    trace (f_world f') = (trace (f_world f) ++ evs)%list /\
    In (EvLog ERROR ("Peer " ++ hostname (peer f)
                       ++ " is NOT responding to pings!")) evs /\
    status (peer f') = "unhealthy" /\
    f_reason f' = Some "Host not responding to DNS queries" /\
    sends evs =
      (if truthy (arg_email argDict) then
         [EvSend (arg_smtp_server argDict) (EMAIL_FROM env)
            (str_opt (arg_email argDict))
            (alert_subject (hostname (peer f)))
            (alert_body (hostname (peer f)) (ip_address (peer f))
               "Host not responding to DNS queries")
            (alert_result env argDict (f_world f) (peer f))]
       else []).
Proof.
  intros Hd Hping Hdns.
  exists (check_peer_outcome env argDict f),
    (outcome_events env argDict (f_world f) (peer f)).
  split; [apply check_peer_run|]. split; [reflexivity|].
  split.
  { unfold outcome_events. rewrite Hping, !in_app_iff.
    do 3 right. left. left. reflexivity. }
  rewrite outcome_sends.
  unfold check_peer_outcome, outcome_alert, outcome_status, outcome_reason,
    alert_reason.
  cbn [peer f_reason set_status status].
  rewrite Hd, Hping, Hdns. repeat split; reflexivity.
Qed.

(** C5 (amended).  When every enabled probe succeeds the peer ends
    "healthy" and no alert is sent.  The local [reason] is not cleared: it
    keeps the value it had when the sequence started, unless the
    resolution of this sequence failed, which sets it to "Hostname cannot
    be resolved". *)
Theorem C5_all_probes_succeed (argDict : Args) (f : Frame) :
  probe_ok (ping_result env argDict (f_world f) (peer f)) = true ->
  (arg_dnscheck argDict = true ->
   probe_ok (dns_result env argDict (f_world f) (peer f)) = true) ->
  exists f' evs,
    check_peer env argDict f = (Next tt, f') /\
    trace (f_world f') = (trace (f_world f) ++ evs)%list /\
    status (peer f') = "healthy" /\
    sends evs = [] /\
    f_reason f' =
      (if resolve_ok (resolve_result env (f_world f) (peer f))
       then f_reason f else Some "Hostname cannot be resolved").
Proof.
  intros Hping Hdns.
  exists (check_peer_outcome env argDict f),
    (outcome_events env argDict (f_world f) (peer f)).
  split; [apply check_peer_run|]. split; [reflexivity|].
  rewrite outcome_sends.
  unfold check_peer_outcome, outcome_alert, outcome_status, outcome_reason.
  cbn [peer f_reason set_status status].
  rewrite Hping.
  destruct (arg_dnscheck argDict); [rewrite (Hdns eq_refl)|];
    destruct (resolve_ok _); repeat split; reflexivity.
Qed.

(** C6.  [resolve_ip] is a query: every call returns, with the address or
    with [None] when the resolver raised, never by an exception, and
    leaves every field of the peer as it was; its only effect is the
    resolver call itself. *)
Theorem C6_resolve_ip_pure_query (s : Self) :
  exists r : option string,
    resolve_ip env s
      = (Return r,
         (tick (EvResolve (hostname (snd s))
                  (gethostbyname env (clock (fst s)) (hostname (snd s))))
               (fst s),
          snd s)) /\
    (forall ip,
       r = Some ip <->
       gethostbyname env (clock (fst s)) (hostname (snd s)) = inl ip) /\
    (r = None <->
     exists e, gethostbyname env (clock (fst s)) (hostname (snd s)) = inr e).
Proof.
  destruct s as [w p]. cbn [fst snd]. rewrite resolve_ip_run. cbn zeta.
  eexists. split; [reflexivity|].
  destruct (gethostbyname env (clock w) (hostname p)) as [ip|e]; split.
  - intros ip'. split; congruence.
  - split; [discriminate | intros [e He]; discriminate He].
  - intros ip'. split; discriminate.
  - split; eauto.
Qed.

(** C7.  The start-up loop resolves every configured host name once, in
    order; the peers it creates are exactly those whose resolution
    succeeded, and each name that failed gets one initialization alert
    when a recipient is configured and none otherwise.  The health-check
    loop never adds a peer, and each pass checks exactly the peers of
    [peerList]. *)
Theorem C7_unresolvable_peer_excluded (argDict : Args) (fuel : nat)
  (w : World) :
  exists l0 evs0,
    main env argDict fuel (initial_locals w) = main_loop env argDict fuel l0
    /\
    trace (l_world l0)
      = (trace w ++ EvLog INFO "Initializing pi-peer-healthcheck ... "
           :: evs0)%list /\
    resolve_hosts evs0 = arg_peerList argDict /\
    map hostname (peerList l0) = resolved_hosts evs0 /\
    send_subjects evs0 =
      (if truthy (arg_email argDict)
       then map init_alert_subject (unresolved_hosts evs0) else []) /\
    map hostname (peerList (snd (main_loop env argDict fuel l0)))
      = map hostname (peerList l0) /\
    (forall l : Locals,
       exists l' evs,
         healthcheck_cycle env argDict l = (Next tt, l') /\
         trace (l_world l') = (trace (l_world l) ++ evs)%list /\
         resolve_hosts evs = map hostname (peerList l) /\
         run_commands evs = flat_map (probe_commands argDict) (peerList l) /\
         map hostname (peerList l') = map hostname (peerList l)).
Proof.
  destruct (main_run argDict fuel w)
    as (l0 & news & evs0 & Hmain & Htr & Hps & Hh & Hres & Hsub & _).
  exists l0, evs0.
  split; [exact Hmain|]. split; [exact Htr|].
  split; [exact Hres|]. split; [rewrite Hps; exact Hh|].
  split; [exact Hsub|]. split.
  { destruct (main_loop_post argDict fuel l0) as (sg & l' & Hl & _ & Hhost & _).
    rewrite Hl. exact Hhost. }
  intros l.
  destruct (healthcheck_cycle_post argDict l)
    as (l' & evs & Hc & Ht & Hhost & _ & _ & Hr & Hcmd & _).
  exists l', evs. auto.
Qed.

(** C8.  A check sequence calls [send_email] once when the peer ends
    "unhealthy" and a recipient is configured, and not at all otherwise;
    over a pass, the alerts sent are those of the peers that ended
    "unhealthy", one each and in list order, and there are none without a
    recipient. *)
Theorem C8_alert_iff_unhealthy (argDict : Args) :
  (forall f : Frame,
     exists f' evs,
       check_peer env argDict f = (Next tt, f') /\
       trace (f_world f') = (trace (f_world f) ++ evs)%list /\
       length (sends evs)
         = if unhealthy (peer f') && truthy (arg_email argDict)
           then 1%nat else 0%nat)
  /\
  (forall l : Locals,
     exists l' evs,
       healthcheck_cycle env argDict l = (Next tt, l') /\
       trace (l_world l') = (trace (l_world l) ++ evs)%list /\
       send_subjects evs =
         (if truthy (arg_email argDict)
          then map (fun p => alert_subject (hostname p))
                 (filter unhealthy (peerList l'))
          else []) /\
       length (sends evs)
         = if truthy (arg_email argDict)
           then length (filter unhealthy (peerList l')) else 0%nat).
Proof.
  split.
  - intros f.
    exists (check_peer_outcome env argDict f),
      (outcome_events env argDict (f_world f) (peer f)).
    split; [apply check_peer_run|]. split; [reflexivity|].
    rewrite outcome_sends, outcome_alert_unhealthy.
    destruct (unhealthy _ && truthy _); reflexivity.
  - intros l.
    destruct (healthcheck_cycle_post argDict l)
      as (l' & evs & Hc & Ht & _ & _ & _ & _ & _ & Hsub & _).
    exists l', evs. repeat split; auto.
    rewrite sends_length, Hsub.
    destruct (truthy (arg_email argDict)); [apply length_map | reflexivity].
Qed.


(** C10.  A peer's status is "unknown" when [__init__] is done, and after
    any sequence of method calls it is "unknown", "healthy" or
    "unhealthy", and "unknown" exactly when no probe was among the calls.
    [peer_ping] and [test_dns] always return a Boolean, never raise, and
    leave the status "healthy" when they return [True] and "unhealthy"
    when they return [False]. *)
Theorem C10_status_invariant (h : string) (w w' : World) (p : PiPeer)
  (ops : list op) :
  PiPeer_init env h (w, blank_peer) = (Next tt, (w', p)) ->
  status p = "unknown" /\
  (forall (t : Z) (s : Self),
     exists b s',
       peer_ping env t s = (Return b, s') /\
       status (snd s') = (if b then "healthy" else "unhealthy")) /\
  (forall (t : Z) (s : Self),
     exists b s',
       test_dns env t s = (Return b, s') /\
       status (snd s') = (if b then "healthy" else "unhealthy")) /\
  valid_status (status (snd (apply_ops env ops (w', p)))) /\
  (status (snd (apply_ops env ops (w', p))) = "unknown"
   <-> existsb is_probe ops = false).
Proof.
  intros Hinit. rewrite PiPeer_init_run in Hinit. cbn zeta in Hinit.
  assert (Hp : status p = "unknown").
  { injection Hinit as _ _ <-. reflexivity. }
  split; [exact Hp|]. split; [|split].
  - intros t [w1 p1]. rewrite peer_ping_run. cbn zeta.
    eexists _, _. split; [reflexivity|].
    cbn. destruct (probe_ok _); reflexivity.
  - intros t [w1 p1]. rewrite test_dns_run. cbn zeta.
    eexists _, _. split; [reflexivity|].
    cbn. destruct (probe_ok _); reflexivity.
  - destruct (apply_ops_status ops (w', p)) as [[Hn Hs]|[Hy Hs]];
      cbn [snd] in Hs; unfold valid_status.
    + rewrite Hs, Hp. split; [auto|]. split; auto.
    + split; [tauto|]. rewrite Hy.
      split; [|discriminate].
      intros Hu. destruct Hs as [Hs|Hs]; rewrite Hs in Hu; discriminate Hu.
Qed.

(** * Further properties of the two files *)

(** ** More about traces *)

Lemma sleep_lengths_app (a b : list event) :
  sleep_lengths (a ++ b) = (sleep_lengths a ++ sleep_lengths b)%list.
Proof. apply flat_map_app. Qed.

Lemma outcome_no_sleep (argDict : Args) (w : World) (p : PiPeer) :
  sleep_lengths (outcome_events env argDict w p) = [].
Proof.
  unfold outcome_events, alert_events;
  destruct (resolve_ok (resolve_result env w p));
  destruct (probe_ok (ping_result env argDict w p));
  destruct (arg_dnscheck argDict);
  destruct (probe_ok (dns_result env argDict w p));
  destruct (outcome_alert env argDict w p);
  destruct (alert_result env argDict w p); reflexivity.
Qed.

Lemma outcome_addressed (argDict : Args) (w : World) (p : PiPeer) :
  Forall (addressed argDict (EMAIL_FROM env)) (outcome_events env argDict w p).
Proof.
  unfold outcome_events, alert_events;
  destruct (resolve_ok (resolve_result env w p));
  destruct (probe_ok (ping_result env argDict w p));
  destruct (arg_dnscheck argDict);
  destruct (probe_ok (dns_result env argDict w p));
  destruct (outcome_alert env argDict w p);
  destruct (alert_result env argDict w p);
  cbn [app]; repeat constructor.
Qed.

Lemma init_failure_addressed argDict w h e :
  Forall (addressed argDict (EMAIL_FROM env))
    (init_failure_events env argDict w h e).
Proof.
  unfold init_failure_events, init_alert_events.
  destruct (truthy (arg_email argDict)); cbn [app]; repeat constructor.
Qed.


(** The events a pass over [ps] adds contain no sleep, and its mails are
    addressed as configured. *)
Lemma for_each_peer_quiet (argDict : Args) (ps : list PiPeer) :
  forall (w : World) (rsn : option string),
  exists w' rsn' ps' evs,
    for_each_peer (check_peer env argDict) ps w rsn
      = (Next tt, (w', rsn', ps')) /\
    trace w' = (trace w ++ evs)%list /\
    sleep_lengths evs = [] /\
    Forall (addressed argDict (EMAIL_FROM env)) evs.
Proof.
  induction ps as [|p ps IH]; intros w rsn.
  - exists w, rsn, [], []. cbn. rewrite app_nil_r. auto.
  - cbn [for_each_peer]. rewrite check_peer_run.
    set (f := {| f_world := w; f_reason := rsn; peer := p |}).
    destruct (IH (f_world (check_peer_outcome env argDict f))
                 (f_reason (check_peer_outcome env argDict f)))
      as (w' & rsn' & ps' & evs & Hrun & Htr & Hsl & Had).
    rewrite Hrun.
    exists w', rsn', (peer (check_peer_outcome env argDict f) :: ps'),
      (outcome_events env argDict w p ++ evs)%list.
    split; [reflexivity|]. split.
    { rewrite Htr. cbn [check_peer_outcome f_world trace].
      rewrite <- app_assoc. reflexivity. }
    rewrite sleep_lengths_app, outcome_no_sleep, Hsl.
    split; [reflexivity|].
    apply Forall_app. split; [apply outcome_addressed | exact Had].
Qed.

(** A pass, with everything known about what it leaves behind. *)
Lemma healthcheck_cycle_quiet (argDict : Args) (l : Locals) :
  exists l' evs,
    healthcheck_cycle env argDict l = (Next tt, l') /\
    trace (l_world l') = (trace (l_world l) ++ evs)%list /\
    cycle_post argDict (peerList l) (peerList l') evs /\
    sleep_lengths evs = [] /\
    Forall (addressed argDict (EMAIL_FROM env)) evs.
Proof.
  destruct (healthcheck_cycle_post argDict l) as (l' & evs & Hc & Htr & Hpost).
  exists l', evs. split; [exact Hc|]. split; [exact Htr|].
  split; [exact Hpost|].
  destruct (for_each_peer_quiet argDict (peerList l) (l_world l) (reason l))
    as (w1 & rsn1 & ps1 & evs1 & Hrun & Htr1 & Hsl & Had).
  unfold healthcheck_cycle, for_peer_in_peerList, bind in Hc.
  rewrite Hrun in Hc. injection Hc as <-.
  cbn [l_world trace record_event with_world HasWorld_Locals world_of
       log modify snd] in Htr.
  rewrite Htr1, <- app_assoc in Htr. apply app_inv_head in Htr. subst evs.
  rewrite sleep_lengths_app, Hsl. split; [reflexivity|].
  apply Forall_app. split; [exact Had | repeat constructor].
Qed.

Lemma create_peers_addressed (argDict : Args) (hosts : list string) :
  forall l : Locals,
  exists l' evs,
    create_peers env argDict hosts l = (Next tt, l') /\
    trace (l_world l') = (trace (l_world l) ++ evs)%list /\
    Forall (addressed argDict (EMAIL_FROM env)) evs.
Proof.
  induction hosts as [|h hosts IH]; intros l.
  - exists l, []. cbn. rewrite app_nil_r. auto.
  - cbn [create_peers]. unfold bind. rewrite create_peer_run.
    destruct (IH (create_peer_outcome env argDict h l))
      as (l' & evs & Hrun & Htr & Had).
    rewrite Hrun. clear Hrun IH.
    unfold create_peer_outcome in Htr.
    destruct (gethostbyname env (clock (l_world l)) h) as [ip|e];
      cbn [l_world tick trace] in Htr.
    + exists l', ([EvResolve h (inl ip)] ++ evs)%list.
      split; [reflexivity|]. split.
      { rewrite Htr, <- (app_assoc (trace (l_world l))). reflexivity. }
      apply Forall_app. split; [repeat constructor | exact Had].
    + exists l', (init_failure_events env argDict (l_world l) h e ++ evs)%list.
      split; [reflexivity|]. split.
      { rewrite Htr, <- (app_assoc (trace (l_world l))). reflexivity. }
      apply Forall_app. split; [apply init_failure_addressed | exact Had].
Qed.

Section NoNameResolves.

Hypothesis Hdeaf : forall c h, resolve_ok (gethostbyname env c h) = false.


End NoNameResolves.

(** X1.  The last probe of a check sequence decides alone: the peer ends
    "healthy" when that probe (the DNS query when DNS-checking is enabled,
    the ping otherwise) succeeded and "unhealthy" when it failed; an alert
    is sent exactly when it failed and a recipient is configured, and the
    reason in its body is that probe's, whatever [reason] held before. *)
Theorem X1_last_probe_decides (argDict : Args) (f : Frame) :
  exists f' evs,
    check_peer env argDict f = (Next tt, f') /\
    trace (f_world f') = (trace (f_world f) ++ evs)%list /\
    status (peer f') =
      (if probe_ok (if arg_dnscheck argDict
                    then dns_result env argDict (f_world f) (peer f)
                    else ping_result env argDict (f_world f) (peer f))
       then "healthy" else "unhealthy") /\
    sends evs =
      (if negb (probe_ok (if arg_dnscheck argDict
                          then dns_result env argDict (f_world f) (peer f)
                          else ping_result env argDict (f_world f) (peer f)))
          && truthy (arg_email argDict)
       then
         [EvSend (arg_smtp_server argDict) (EMAIL_FROM env)
            (str_opt (arg_email argDict))
            (alert_subject (hostname (peer f)))
            (alert_body (hostname (peer f)) (ip_address (peer f))
               (if arg_dnscheck argDict
                then "Host not responding to DNS queries"
                else "Host cannot be pinged"))
            (alert_result env argDict (f_world f) (peer f))]
       else []).
Proof.
  exists (check_peer_outcome env argDict f),
    (outcome_events env argDict (f_world f) (peer f)).
  split; [apply check_peer_run|]. split; [reflexivity|].
  rewrite outcome_sends.
  unfold check_peer_outcome, outcome_alert, outcome_status, alert_reason,
    status_of_probe.
  cbn [peer set_status status].
  destruct (arg_dnscheck argDict);
    [destruct (probe_ok (dns_result env argDict (f_world f) (peer f)))
    |destruct (probe_ok (ping_result env argDict (f_world f) (peer f)))];
    split; reflexivity.
Qed.

(** X2.  A check sequence has no memory: neither the status the peer had
    nor the value of [reason] changes what it does.  Started in the same
    world on a peer with the same name and address, it adds the same
    events (probes, log records, alert) and leaves the same peer. *)
Theorem X2_check_has_no_memory (argDict : Args) (w : World)
  (rsn rsn' : option string) (p : PiPeer) (st : string) :
  f_world (snd (check_peer env argDict
                  {| f_world := w; f_reason := rsn; peer := p |}))
  = f_world (snd (check_peer env argDict
                    {| f_world := w; f_reason := rsn';
                       peer := set_status st p |}))
  /\
  peer (snd (check_peer env argDict
               {| f_world := w; f_reason := rsn; peer := p |}))
  = peer (snd (check_peer env argDict
                 {| f_world := w; f_reason := rsn';
                    peer := set_status st p |})).
Proof.
  rewrite !check_peer_run. split; reflexivity.
Qed.

(** X3.  The methods of a peer touch nothing but its status: after any
    sequence of [resolve_ip], [peer_ping] and [test_dns] calls the host
    name and the address are the ones the peer had, and each call made
    exactly one external call. *)
Theorem X3_methods_keep_identity (ops : list op) (s : Self) :
  hostname (snd (apply_ops env ops s)) = hostname (snd s) /\
  ip_address (snd (apply_ops env ops s)) = ip_address (snd s) /\
  clock (fst (apply_ops env ops s)) = (clock (fst s) + length ops)%nat /\
  length (trace (fst (apply_ops env ops s)))
    = (length (trace (fst s)) + length ops)%nat.
Proof.
  revert s. induction ops as [|o ops IH]; intros s.
  - cbn. rewrite !Nat.add_0_r. auto.
  - change (apply_ops env (o :: ops) s)
      with (apply_ops env ops (apply_op env o s)).
    destruct (IH (apply_op env o s)) as (Hh & Hip & Hc & Ht).
    rewrite Hh, Hip, Hc, Ht. clear IH Hh Hip Hc Ht.
    destruct s as [w p]. cbn [length].
    destruct o as [|t|t]; cbn [apply_op];
      rewrite ?resolve_ip_run, ?peer_ping_run, ?test_dns_run;
      cbn [fst snd tick clock trace set_status hostname ip_address];
      rewrite length_app; cbn [length]; repeat split; lia.
Qed.

(** X4.  A name that resolves at start-up adds one peer at the end of
    [peerList], with that name, the address the resolver gave and the
    status "unknown"; the iteration makes the one resolver call, logs
    nothing at INFO or above, sends no mail and leaves [reason] alone. *)
Theorem X4_resolvable_name_appended (argDict : Args) (h ip : string)
  (l : Locals) :
  gethostbyname env (clock (l_world l)) h = inl ip ->
  create_peer env argDict h l
  = (Next tt,
     {| l_world := {| clock := S (clock (l_world l));
                      trace := trace (l_world l) ++ [EvResolve h (inl ip)] |};
        peerList := peerList l
                      ++ [{| hostname := h; status := "unknown";
                             ip_address := Some ip |}];
        reason := reason l |}).
Proof.
  intros Hr. rewrite create_peer_run. unfold create_peer_outcome.
  rewrite Hr. reflexivity.
Qed.

(** X5.  When a name does not resolve at start-up, a recipient is
    configured and the relay takes the initialization alert, the success
    is never logged: evaluating [peer.hostname] on the host-name string
    raises inside the [try], so the iteration ends with an ERROR record
    that blames the send.  The WARNING record and the mail carry the text
    of the [ValueError] of [__init__], not the resolver's. *)
Theorem X5_delivered_init_alert_logged_as_failure (argDict : Args)
  (h : string) (e : exn) (l : Locals) :
  gethostbyname env (clock (l_world l)) h = inr e ->
  truthy (arg_email argDict) = true ->
  init_alert_result env argDict (l_world l) h = None ->
  create_peer env argDict h l
  = (Next tt,
     {| l_world :=
          {| clock := S (S (clock (l_world l)));
             trace := trace (l_world l)
               ++ [ EvResolve h (inr e);
                    EvLog WARNING
                      ("Error creating PiPeer object for " ++ h ++ ": "
                         ++ "Could not resolve hostname for peer: " ++ h);
                    EvLog WARNING ("Peer " ++ h ++ " will NOT be checked!");
                    EvLog INFO
                      ("Sending alert email for failed PiPeer initialization: "
                         ++ h);
                    EvSend (arg_smtp_server argDict) (EMAIL_FROM env)
                      (str_opt (arg_email argDict)) (init_alert_subject h)
                      (init_alert_body h
                         ("Could not resolve hostname for peer: " ++ h))
                      None;
                    EvLog ERROR
                      ("Failed to send alert email for peer " ++ h ++ ": "
                         ++ "'str' object has no attribute 'hostname'") ] |};
        peerList := peerList l;
        reason := reason l |}).
Proof.
  intros Hr Hmail Hsent. rewrite create_peer_run.
  unfold create_peer_outcome, init_failure_events, init_alert_events.
  rewrite Hr, Hmail, Hsent. reflexivity.
Qed.

(** X6.  Without [--daemonize] the loop makes exactly one pass and leaves
    by [break], without sleeping: whatever fuel is left, the result is the
    state the first pass produced. *)
Theorem X6_single_shot_one_pass (argDict : Args) (fuel : nat) (l : Locals) :
  arg_daemonize argDict = false ->
  exists l' evs,
    healthcheck_cycle env argDict l = (Next tt, l') /\
    main_loop env argDict (S fuel) l = (Next true, l') /\
    trace (l_world l') = (trace (l_world l) ++ evs)%list /\
    resolve_hosts evs = map hostname (peerList l) /\
    sleep_lengths evs = [].
Proof.
  intros Hd.
  destruct (healthcheck_cycle_quiet argDict l)
    as (l' & evs & Hc & Htr & Hpost & Hsl & _).
  destruct Hpost as (_ & _ & _ & Hres & _).
  exists l', evs. split; [exact Hc|]. split.
  { cbn [main_loop]. unfold bind at 1. rewrite Hc, Hd. reflexivity. }
  auto.
Qed.


(** X8.  With [--daemonize] and a negative interval that fits in 64-bit
    nanoseconds the first pass runs to its end, the sleep is announced,
    and [time.sleep] raises: the [ValueError] leaves [main_loop] and no
    second pass is made. *)
Theorem X8_negative_interval_aborts (argDict : Args) (fuel : nat)
  (l : Locals) :
  arg_daemonize argDict = true ->
  - sleep_max_secs <= arg_interval argDict < 0 ->
  exists l' evs,
    healthcheck_cycle env argDict l = (Next tt, l') /\
    trace (l_world l') = (trace (l_world l) ++ evs)%list /\
    resolve_hosts evs = map hostname (peerList l) /\
    main_loop env argDict (S fuel) l
    = (Raise sleep_error,
       with_world
         (record_event
            (EvLog INFO ("Sleeping for " ++ str_int (arg_interval argDict)
                           ++ " seconds before next healthcheck cycle ... "))
            (l_world l')) l').
Proof.
  intros Hd Hi.
  destruct (healthcheck_cycle_post argDict l)
    as (l' & evs & Hc & Htr & _ & _ & _ & Hres & _).
  exists l', evs. repeat split; auto.
  cbn [main_loop]. unfold bind at 1. rewrite Hc, Hd. cbn [negb].
  unfold bind, log, modify, time_sleep.
  replace (arg_interval argDict <? - sleep_max_secs) with false
    by (symmetry; apply Z.ltb_ge; lia).
  replace (sleep_max_secs <? arg_interval argDict) with false
    by (symmetry; apply Z.ltb_ge; unfold sleep_max_secs in *; lia).
  replace (arg_interval argDict <? 0) with true
    by (symmetry; apply Z.ltb_lt; lia).
  reflexivity.
Qed.


(** X10.  Every mail of the start-up loop and of a pass goes through the
    configured relay, from [EMAIL_FROM], to the configured recipient. *)
Theorem X10_mails_addressed_as_configured (argDict : Args) :
  (forall (hosts : list string) (l : Locals),
     exists l' evs,
       create_peers env argDict hosts l = (Next tt, l') /\
       trace (l_world l') = (trace (l_world l) ++ evs)%list /\
       Forall (addressed argDict (EMAIL_FROM env)) evs)
  /\
  (forall l : Locals,
     exists l' evs,
       healthcheck_cycle env argDict l = (Next tt, l') /\
       trace (l_world l') = (trace (l_world l) ++ evs)%list /\
       Forall (addressed argDict (EMAIL_FROM env)) evs).
Proof.
  split.
  - intros hosts l. apply create_peers_addressed.
  - intros l.
    destruct (healthcheck_cycle_quiet argDict l)
      as (l' & evs & Hc & Htr & _ & _ & Had).
    exists l', evs. auto.
Qed.

(** X11.  With [--daemonize] and an interval beyond what fits in 64-bit
    nanoseconds, on either side of zero, the first pass runs to its end,
    the sleep is announced, and [time.sleep] raises [OverflowError], which
    nothing catches: no sleep takes place and no second pass is made. *)
Theorem X11_oversized_interval_aborts (argDict : Args) (fuel : nat)
  (l : Locals) :
  arg_daemonize argDict = true ->
  arg_interval argDict < - sleep_max_secs
  \/ sleep_max_secs < arg_interval argDict ->
  exists l' evs e,
    healthcheck_cycle env argDict l = (Next tt, l') /\
    trace (l_world l') = (trace (l_world l) ++ evs)%list /\
    resolve_hosts evs = map hostname (peerList l) /\
    exn_class e = "OverflowError" /\
    main_loop env argDict (S fuel) l
    = (Raise e,
       with_world
         (record_event
            (EvLog INFO ("Sleeping for " ++ str_int (arg_interval argDict)
                           ++ " seconds before next healthcheck cycle ... "))
            (l_world l')) l').
Proof.
  intros Hd Hi.
  destruct (healthcheck_cycle_post argDict l)
    as (l' & evs & Hc & Htr & _ & _ & _ & Hres & _).
  exists l', evs, sleep_overflow. repeat split; auto.
  cbn [main_loop]. unfold bind at 1. rewrite Hc, Hd. cbn [negb].
  unfold bind, log, modify, time_sleep.
  replace ((arg_interval argDict <? - sleep_max_secs)
           || (sleep_max_secs <? arg_interval argDict)) with true;
    [reflexivity|].
  symmetry. apply orb_true_iff. rewrite !Z.ltb_lt. exact Hi.
Qed.

End Properties.

(** * The claims on concrete runs *)

(** The run behind C1: one peer, DNS-checking on, a recipient configured;
    the ping returns 1, the DNS query 0.  The peer is reported healthy and
    no mail is sent. *)
Example masked_ping_failure_run :
  main masked_env (lan_args ["a.local"] true ops_mail) 1
    (initial_locals world0)
  = (Next true,
     {| l_world :=
          {| clock := 4;
             trace :=
               [ EvLog INFO "Initializing pi-peer-healthcheck ... ";
                 EvResolve "a.local" (inl "10.0.0.1");
                 EvLog INFO "Running healthchecks on peer: a.local (10.0.0.1)";
                 EvResolve "a.local" (inl "10.0.0.1");
                 EvRun "ping -c 4 -W 5 10.0.0.1" (inl 1);
                 EvLog ERROR "Peer a.local is NOT responding to pings!";
                 EvLog INFO "Peer a.local is unhealthy.";
                 EvRun "timeout 5 nslookup a.local 10.0.0.1" (inl 0);
                 EvLog INFO "Healthcheck completed for peer: a.local";
                 EvLog INFO "Healthchecks completed for all peers." ] |};
        peerList :=
          [ {| hostname := "a.local"; status := "healthy";
               ip_address := Some "10.0.0.1" |} ];
        reason := Some "Host cannot be pinged" |}).
Proof. reflexivity. Qed.

Lemma C1_witness :
  arg_dnscheck (lan_args ["a.local"] true ops_mail) = true /\
  probe_ok (ping_result masked_env (lan_args ["a.local"] true ops_mail)
              world0 peer_a) = false /\
  probe_ok (dns_result masked_env (lan_args ["a.local"] true ops_mail)
              world0 peer_a) = true /\
  status (peer (snd (check_peer masked_env
                       (lan_args ["a.local"] true ops_mail)
                       (frame0 None peer_a)))) = "healthy".
Proof.
  split; [reflexivity|]. split; [reflexivity|]. split; [reflexivity|].
  destruct (C1_dns_success_masks_ping_failure masked_env
              (lan_args ["a.local"] true ops_mail) (frame0 None peer_a)
              eq_refl eq_refl eq_refl)
    as (f' & evs & Hrun & _ & _ & _ & Hst & _).
  rewrite Hrun. exact Hst.
Defined.

(** C2, as stated, fails: [a.local] resolves to 10.0.0.1 at start-up and
    to 10.0.0.2 in the first pass; after the pass the peer still holds
    10.0.0.1, and the ping of that pass was sent to 10.0.0.1. *)
Lemma C2_counterexample :
  trace (l_world (snd (main moving_env (lan_args ["a.local"] false None) 1
                         (initial_locals world0))))
  = [ EvLog INFO "Initializing pi-peer-healthcheck ... ";
      EvResolve "a.local" (inl "10.0.0.1");
      EvLog INFO "Running healthchecks on peer: a.local (10.0.0.1)";
      EvResolve "a.local" (inl "10.0.0.2");
      EvRun "ping -c 4 -W 5 10.0.0.1" (inl 0);
      EvLog INFO "Peer a.local is healthy.";
      EvLog INFO "Healthcheck completed for peer: a.local";
      EvLog INFO "Healthchecks completed for all peers." ] /\
  map ip_address
    (peerList (snd (main moving_env (lan_args ["a.local"] false None) 1
                      (initial_locals world0))))
  = [Some "10.0.0.1"] /\
  map ip_address
    (peerList (snd (main moving_env (lan_args ["a.local"] false None) 1
                      (initial_locals world0))))
  <> [Some "10.0.0.2"].
Proof. repeat split; try reflexivity. discriminate. Qed.

(** C3, as stated, fails on the text of the reason: with only the ping
    enabled and the ping failing, the reason is "Host cannot be pinged". *)
Lemma C3_counterexample :
  arg_dnscheck (lan_args ["b.local"] false ops_mail) = false /\
  probe_ok (ping_result dead_env (lan_args ["b.local"] false ops_mail)
              world0 peer_b) = false /\
  status (peer (snd (check_peer dead_env
                       (lan_args ["b.local"] false ops_mail)
                       (frame0 None peer_b)))) = "unhealthy" /\
  f_reason (snd (check_peer dead_env (lan_args ["b.local"] false ops_mail)
                   (frame0 None peer_b)))
  = Some "Host cannot be pinged" /\
  f_reason (snd (check_peer dead_env (lan_args ["b.local"] false ops_mail)
                   (frame0 None peer_b)))
  <> Some "host unreachable via network probe".
Proof. repeat split; try reflexivity. discriminate. Qed.

Lemma C3_witness :
  arg_dnscheck (lan_args ["b.local"] false ops_mail) = false /\
  probe_ok (ping_result dead_env (lan_args ["b.local"] false ops_mail)
              world0 peer_b) = false /\
  sends (trace (f_world (snd (check_peer dead_env
                                (lan_args ["b.local"] false ops_mail)
                                (frame0 None peer_b)))))
  = [ EvSend "mail.protonmail.ch" "pi-peer-healthcheck@pi0.kevind.link"
        "ops@example.org"
        (alert_subject "b.local")
        (alert_body "b.local" (Some "10.0.0.2") "Host cannot be pinged")
        None ].
Proof.
  split; [reflexivity|]. split; [reflexivity|].
  destruct (C3_ping_failure_reason dead_env
              (lan_args ["b.local"] false ops_mail) (frame0 None peer_b)
              eq_refl eq_refl)
    as (f' & evs & Hrun & Htr & _ & _ & _ & Hsends).
  rewrite Hrun. cbn [snd]. rewrite Htr. exact Hsends.
Defined.

Lemma C4_witness :
  arg_dnscheck (lan_args ["b.local"] true ops_mail) = true /\
  probe_ok (ping_result dead_env (lan_args ["b.local"] true ops_mail)
              world0 peer_b) = false /\
  probe_ok (dns_result dead_env (lan_args ["b.local"] true ops_mail)
              world0 peer_b) = false /\
  f_reason (snd (check_peer dead_env (lan_args ["b.local"] true ops_mail)
                   (frame0 None peer_b)))
  = Some "Host not responding to DNS queries".
Proof.
  split; [reflexivity|]. split; [reflexivity|]. split; [reflexivity|].
  destruct (C4_last_failure_wins dead_env
              (lan_args ["b.local"] true ops_mail) (frame0 None peer_b)
              eq_refl eq_refl eq_refl)
    as (f' & evs & Hrun & _ & _ & _ & Hrsn & _).
  rewrite Hrun. exact Hrsn.
Defined.

(** C5, as stated, fails on the reason: [b.local] is checked first and
    does not answer the ping, [a.local] is checked next and passes; when
    the pass is over [a.local] is healthy and the local [reason] still
    holds what the failure of [b.local] left in it. *)
Lemma C5_counterexample :
  main half_env (lan_args ["b.local"; "a.local"] false None) 1
    (initial_locals world0)
  = (Next true,
     {| l_world :=
          {| clock := 6;
             trace :=
               [ EvLog INFO "Initializing pi-peer-healthcheck ... ";
                 EvResolve "b.local" (inl "10.0.0.2");
                 EvResolve "a.local" (inl "10.0.0.1");
                 EvLog INFO "Running healthchecks on peer: b.local (10.0.0.2)";
                 EvResolve "b.local" (inl "10.0.0.2");
                 EvRun "ping -c 4 -W 5 10.0.0.2" (inl 1);
                 EvLog ERROR "Peer b.local is NOT responding to pings!";
                 EvLog INFO "Peer b.local is unhealthy.";
                 EvLog INFO "Healthcheck completed for peer: b.local";
                 EvLog INFO "Running healthchecks on peer: a.local (10.0.0.1)";
                 EvResolve "a.local" (inl "10.0.0.1");
                 EvRun "ping -c 4 -W 5 10.0.0.1" (inl 0);
                 EvLog INFO "Peer a.local is healthy.";
                 EvLog INFO "Healthcheck completed for peer: a.local";
                 EvLog INFO "Healthchecks completed for all peers." ] |};
        peerList :=
          [ {| hostname := "b.local"; status := "unhealthy";
               ip_address := Some "10.0.0.2" |};
            {| hostname := "a.local"; status := "healthy";
               ip_address := Some "10.0.0.1" |} ];
        reason := Some "Host cannot be pinged" |}) /\
  probe_ok (ping_result half_env (lan_args ["b.local"; "a.local"] false None)
              world0 peer_a) = true /\
  f_reason (snd (check_peer half_env
                   (lan_args ["b.local"; "a.local"] false None)
                   (frame0 (Some "Host cannot be pinged") peer_a)))
  <> None.
Proof. repeat split; try reflexivity. discriminate. Qed.

Lemma C5_witness :
  probe_ok (ping_result healthy_env (lan_args ["a.local"] true ops_mail)
              world0 peer_a) = true /\
  (arg_dnscheck (lan_args ["a.local"] true ops_mail) = true ->
   probe_ok (dns_result healthy_env (lan_args ["a.local"] true ops_mail)
               world0 peer_a) = true) /\
  status (peer (snd (check_peer healthy_env
                       (lan_args ["a.local"] true ops_mail)
                       (frame0 (Some "Host cannot be pinged") peer_a))))
  = "healthy" /\
  f_reason (snd (check_peer healthy_env
                   (lan_args ["a.local"] true ops_mail)
                   (frame0 (Some "Host cannot be pinged") peer_a)))
  = Some "Host cannot be pinged".
Proof.
  split; [reflexivity|]. split; [intros _; reflexivity|].
  destruct (C5_all_probes_succeed healthy_env
              (lan_args ["a.local"] true ops_mail)
              (frame0 (Some "Host cannot be pinged") peer_a)
              eq_refl (fun _ => eq_refl))
    as (f' & evs & Hrun & _ & Hst & _ & Hrsn).
  rewrite Hrun. split; [exact Hst | exact Hrsn].
Defined.

(** A pass in which the relay is down: both alerts fail, both failures are
    logged, and the second peer is checked after the first alert failed. *)
Example relay_down_run :
  trace (l_world (snd (main (lan_env [] true)
                         (lan_args ["a.local"; "b.local"] false ops_mail) 1
                         (initial_locals world0))))
  = [ EvLog INFO "Initializing pi-peer-healthcheck ... ";
      EvResolve "a.local" (inl "10.0.0.1");
      EvResolve "b.local" (inl "10.0.0.2");
      EvLog INFO "Running healthchecks on peer: a.local (10.0.0.1)";
      EvResolve "a.local" (inl "10.0.0.1");
      EvRun "ping -c 4 -W 5 10.0.0.1" (inl 1);
      EvLog ERROR "Peer a.local is NOT responding to pings!";
      EvLog INFO "Peer a.local is unhealthy.";
      EvLog INFO "Sending alert email for unhealthy peer: a.local";
      EvSend "mail.protonmail.ch" "pi-peer-healthcheck@pi0.kevind.link"
        "ops@example.org" (alert_subject "a.local")
        (alert_body "a.local" (Some "10.0.0.1") "Host cannot be pinged")
        (Some (Exn "ConnectionRefusedError" "[Errno 111] Connection refused"));
      EvLog ERROR "Failed to send alert email for peer a.local: Failed to send email to ops@example.org: [Errno 111] Connection refused";
      EvLog INFO "Healthcheck completed for peer: a.local";
      EvLog INFO "Running healthchecks on peer: b.local (10.0.0.2)";
      EvResolve "b.local" (inl "10.0.0.2");
      EvRun "ping -c 4 -W 5 10.0.0.2" (inl 1);
      EvLog ERROR "Peer b.local is NOT responding to pings!";
      EvLog INFO "Peer b.local is unhealthy.";
      EvLog INFO "Sending alert email for unhealthy peer: b.local";
      EvSend "mail.protonmail.ch" "pi-peer-healthcheck@pi0.kevind.link"
        "ops@example.org" (alert_subject "b.local")
        (alert_body "b.local" (Some "10.0.0.2") "Host cannot be pinged")
        (Some (Exn "ConnectionRefusedError" "[Errno 111] Connection refused"));
      EvLog ERROR "Failed to send alert email for peer b.local: Failed to send email to ops@example.org: [Errno 111] Connection refused";
      EvLog INFO "Healthcheck completed for peer: b.local";
      EvLog INFO "Healthchecks completed for all peers." ].
Proof. reflexivity. Qed.

(** [send_failures_logged] asks for a record after each failed send: a
    record logged earlier does not stand for the two failures that follow
    it. *)
Example unlogged_failure_rejected :
  ~ send_failures_logged
      [ EvLog ERROR "Failed to send alert email for peer a.local: Failed to send email to ops@example.org: [Errno 111] Connection refused";
        EvSend "mail.protonmail.ch" "pi-peer-healthcheck@pi0.kevind.link"
          "ops@example.org" (alert_subject "a.local")
          (alert_body "a.local" (Some "10.0.0.1") "Host cannot be pinged")
          (Some (Exn "ConnectionRefusedError" "[Errno 111] Connection refused"));
        EvSend "mail.protonmail.ch" "pi-peer-healthcheck@pi0.kevind.link"
          "ops@example.org" (alert_subject "b.local")
          (alert_body "b.local" (Some "10.0.0.2") "Host cannot be pinged")
          (Some (Exn "ConnectionRefusedError" "[Errno 111] Connection refused")) ].
Proof. cbn. intros [[h [_ H]] _]. discriminate H. Qed.

(** A name that does not resolve at start-up: one initialization alert,
    no peer, and the pass checks [a.local] only. *)
Example unresolvable_peer_run :
  map hostname
    (peerList (snd (main healthy_env
                      (lan_args ["c.local"; "a.local"] false ops_mail) 1
                      (initial_locals world0))))
  = ["a.local"] /\
  send_subjects
    (trace (l_world (snd (main healthy_env
                            (lan_args ["c.local"; "a.local"] false ops_mail) 1
                            (initial_locals world0)))))
  = [init_alert_subject "c.local"] /\
  resolve_hosts
    (trace (l_world (snd (main healthy_env
                            (lan_args ["c.local"; "a.local"] false ops_mail) 1
                            (initial_locals world0)))))
  = ["c.local"; "a.local"; "a.local"].
Proof. repeat split; reflexivity. Qed.

Lemma C10_witness :
  PiPeer_init healthy_env "a.local" (world0, blank_peer)
  = (Next tt,
     ({| clock := 1; trace := [EvResolve "a.local" (inl "10.0.0.1")] |},
      peer_a)) /\
  valid_status
    (status (snd (apply_ops healthy_env [OpResolve; OpPing 5; OpDns 5]
                    ({| clock := 1;
                        trace := [EvResolve "a.local" (inl "10.0.0.1")] |},
                     peer_a)))) /\
  status (snd (apply_ops healthy_env [OpResolve]
                 ({| clock := 1;
                     trace := [EvResolve "a.local" (inl "10.0.0.1")] |},
                  peer_a))) = "unknown".
Proof.
  split; [reflexivity|]. split.
  - exact (proj1 (proj2 (proj2 (proj2
      (C10_status_invariant healthy_env "a.local" world0
         {| clock := 1; trace := [EvResolve "a.local" (inl "10.0.0.1")] |}
         peer_a [OpResolve; OpPing 5; OpDns 5] eq_refl))))).
  - apply (proj2 (proj2 (proj2 (proj2
      (C10_status_invariant healthy_env "a.local" world0
         {| clock := 1; trace := [EvResolve "a.local" (inl "10.0.0.1")] |}
         peer_a [OpResolve] eq_refl))))).
    reflexivity.
Defined.

(** * The further properties on concrete runs *)

Lemma X4_witness :
  gethostbyname healthy_env (clock (l_world (initial_locals world0))) "a.local"
  = inl "10.0.0.1" /\
  peerList (snd (create_peer healthy_env (lan_args ["a.local"] false ops_mail)
                   "a.local" (initial_locals world0)))
  = [peer_a].
Proof.
  split; [reflexivity|].
  rewrite (X4_resolvable_name_appended healthy_env
             (lan_args ["a.local"] false ops_mail) "a.local" "10.0.0.1"
             (initial_locals world0) eq_refl).
  reflexivity.
Defined.

Lemma X5_witness :
  gethostbyname healthy_env (clock (l_world (initial_locals world0))) "c.local"
  = inr (Exn "gaierror" "[Errno -2] Name or service not known") /\
  truthy (arg_email (lan_args ["c.local"] false ops_mail)) = true /\
  init_alert_result healthy_env (lan_args ["c.local"] false ops_mail)
    (l_world (initial_locals world0)) "c.local" = None /\
  last (trace (l_world (snd (create_peer healthy_env
                               (lan_args ["c.local"] false ops_mail)
                               "c.local" (initial_locals world0)))))
       (EvSleep 0)
  = EvLog ERROR
      "Failed to send alert email for peer c.local: 'str' object has no attribute 'hostname'".
Proof.
  split; [reflexivity|]. split; [reflexivity|]. split; [reflexivity|].
  rewrite (X5_delivered_init_alert_logged_as_failure healthy_env
             (lan_args ["c.local"] false ops_mail) "c.local"
             (Exn "gaierror" "[Errno -2] Name or service not known")
             (initial_locals world0) eq_refl eq_refl eq_refl).
  reflexivity.
Defined.

Lemma X6_witness :
  arg_daemonize (lan_args ["a.local"] false ops_mail) = false /\
  main_loop healthy_env (lan_args ["a.local"] false ops_mail) 4 locals_a
  = (Next true,
     snd (healthcheck_cycle healthy_env (lan_args ["a.local"] false ops_mail)
            locals_a)).
Proof.
  split; [reflexivity|].
  destruct (X6_single_shot_one_pass healthy_env
              (lan_args ["a.local"] false ops_mail) 3 locals_a eq_refl)
    as (l' & evs & Hc & Hloop & _).
  rewrite Hloop, Hc. reflexivity.
Defined.


Lemma X8_witness :
  arg_daemonize (daemon_args ["a.local"] (-1)) = true /\
  - sleep_max_secs <= arg_interval (daemon_args ["a.local"] (-1)) < 0 /\
  fst (main_loop healthy_env (daemon_args ["a.local"] (-1)) 3 locals_a)
  = Raise sleep_error.
Proof.
  assert (Hi : - sleep_max_secs
                 <= arg_interval (daemon_args ["a.local"] (-1)) < 0)
    by (split; [cbv; discriminate | reflexivity]).
  split; [reflexivity|]. split; [exact Hi|].
  destruct (X8_negative_interval_aborts healthy_env
              (daemon_args ["a.local"] (-1)) 2 locals_a eq_refl Hi)
    as (l' & evs & _ & _ & _ & Hloop).
  rewrite Hloop. reflexivity.
Defined.


Lemma X11_witness :
  arg_daemonize (daemon_args ["a.local"] 9223372037) = true /\
  (arg_interval (daemon_args ["a.local"] 9223372037) < - sleep_max_secs
   \/ sleep_max_secs < arg_interval (daemon_args ["a.local"] 9223372037)) /\
  exists e,
    exn_class e = "OverflowError" /\
    fst (main_loop healthy_env (daemon_args ["a.local"] 9223372037) 3
           locals_a)
    = Raise e.
Proof.
  assert (Hi : arg_interval (daemon_args ["a.local"] 9223372037)
               < - sleep_max_secs
               \/ sleep_max_secs
                  < arg_interval (daemon_args ["a.local"] 9223372037))
    by (right; reflexivity).
  split; [reflexivity|]. split; [exact Hi|].
  destruct (X11_oversized_interval_aborts healthy_env
              (daemon_args ["a.local"] 9223372037) 2 locals_a eq_refl Hi)
    as (l' & evs & e & _ & _ & _ & Hclass & Hloop).
  exists e. split; [exact Hclass|]. rewrite Hloop. reflexivity.
Defined.
